(** * OPEC.Timeline: a shallow embedding of the timeline widget

    The widget (constructor [opec.TimeLine] and its prototype methods) is
    embedded as pure functions over an explicit widget state.

    Numbers.  JavaScript numbers are IEEE doubles.  Pixel sizes and
    millisecond timestamps are integers ([Z]), and the non-numbers that the
    code can produce ([undefined], [null], [NaN], an invalid [Date]) are
    explicit constructors.  What the code obtains by a division is read
    twice: as an exact rational ([Q]), which is enough where only the order
    of magnitude or the frame of an operation matters, and in module
    [Doubles] as the double the code computes, for whatever depends on its
    rounding (the tick steps, the axis, the date a drag step arrives at). *)

From Stdlib Require Import String ZArith QArith Qround Qabs Bool Lia Lqa List.
From Stdlib Require Floats.
From Equations Require Import Equations.
Import ListNotations.

Set Implicit Arguments.

(** ** Rational helpers *)

(** [x < y] on JavaScript numbers, for finite values. *)
Definition Qltb (x y : Q) : bool :=
  (Qnum x * QDen y <? Qnum y * QDen x)%Z.

Lemma Qltb_lt (x y : Q) : Qltb x y = true <-> x < y.
Proof. unfold Qltb, Qlt. apply Z.ltb_lt. Qed.

Lemma Qltb_ge (x y : Q) : Qltb x y = false <-> y <= x.
Proof. unfold Qltb, Qle. rewrite Z.ltb_ge. reflexivity. Qed.

Lemma Qle_bool_gt (x y : Q) : Qle_bool x y = false <-> y < x.
Proof.
  split; intro H.
  - apply Qnot_le_lt. intro Hle. apply Qle_bool_iff in Hle. congruence.
  - destruct (Qle_bool x y) eqn:E; [|reflexivity].
    apply Qle_bool_iff in E. exfalso. apply (Qlt_not_le _ _ H E).
Qed.

(** [d3.round(x)] with one argument is [Math.round(x)]: the nearest integer,
    a tie going up. *)
Definition d3_round (x : Q) : Z := Qfloor (x + (1 # 2)).

(** ** getNearestInArray (lines 61-69) *)

(** The body of the [$.each] callback: [closest] is [None] for [null]. *)
Definition nearest_step (goal : Q) (closest : option Q) (e : Q) : option Q :=
  match closest with
  | None => Some e
  | Some c => if Qltb (Qabs (e - goal)) (Qabs (c - goal)) then Some e else closest
  end.

Definition getNearestInArray (arr : list Q) (goal : Q) : option Q :=
  fold_left (nearest_step goal) arr None.

(** ** The tick policy of [redraw] (lines 205-220) *)

Inductive Interval := Years | Months | Weeks | Days | Hours.

(** What [xAxis.ticks(unit, step).tickFormat(d3.time.format(fmt))] records.
    [step] is the JavaScript value handed over; [None] is [null]. *)
Record Ticks := mkTicks {
  interval : Interval;
  step : option Q;
  tickFormat : string
}.

Definition monthSteps : list Q := [1; 2; 3; 4; 6; 12].

(** The [if]/[else if] chain of lines 206-220 on the exact value of a
    finite scaling, conditions as written.  The chain has no final [else]:
    [None] is the axis left as it was.  [Doubles.tickPolicyF] is the chain
    on the double. *)
Definition tickPolicy (scaling : Q) : option Ticks :=
  if Qltb 12 scaling then
    Some (mkTicks Years (Some (inject_Z (d3_round (scaling / 12)))) "%Y")
  else if Qle_bool scaling 12 && Qltb 1 scaling then
    Some (mkTicks Months (getNearestInArray monthSteps scaling) "%b %y")
  else if Qle_bool scaling 1 && Qltb (1 / 7) scaling then
    Some (mkTicks Weeks (Some (inject_Z (d3_round (scaling * 4.3)))) "%d/%m/%y")
  else if Qle_bool scaling (1 / 7) && Qltb (1 / 365) scaling then
    Some (mkTicks Days (Some (inject_Z (d3_round (scaling * 30)))) "%d/%m/%y")
  else if Qle_bool scaling (1 / 365) then
    Some (mkTicks Hours (Some (inject_Z (d3_round (scaling * 730)))) "%I %p")
  else None.

(** ** JavaScript values *)

(** A property of the options object: absent (it reads as [undefined]),
    [null], or holding a value. *)
Inductive jsopt (A : Type) : Type :=
| Absent
| Null
| Given (a : A).
Arguments Absent {A}.
Arguments Null {A}.

(** A widget property that holds a number or [undefined]. *)
Inductive jsval :=
| JUndefined
| JNum (n : Z).

(** A pixel quantity computed by the widget: an integer or [NaN]. *)
Inductive num :=
| Fin (z : Z)
| NaN.

Definition toNumber (v : jsval) : num :=
  match v with
  | JUndefined => NaN
  | JNum n => Fin n
  end.

Definition nadd (a b : num) : num :=
  match a, b with
  | Fin x, Fin y => Fin (x + y)
  | _, _ => NaN
  end.

Definition nmul (a b : num) : num :=
  match a, b with
  | Fin x, Fin y => Fin (x * y)
  | _, _ => NaN
  end.

(** [a === 0] *)
Definition is_zero (a : num) : bool :=
  match a with
  | Fin x => (x =? 0)%Z
  | NaN => false
  end.

(** A [Date]: its time value in milliseconds, [None] for an invalid date. *)
Definition date := option Z.

(** [new Date(t)] for a finite number [t]: the time value is [t] truncated
    towards zero (the range limit of time values is not represented). *)
Definition toInteger (q : Q) : Z :=
  if Qle_bool 0 q then Qfloor q else Qceiling q.

(** ** Data model *)

(** [chartMargins] *)
Module Margins.
Record t := mk { top : Z; right : Z; bottom : Z; left : Z }.
Definition zero : t := mk 0 0 0 0.
End Margins.

(** A time bar.  The ISO-8601 strings [startDate], [endDate] and [dateTimes]
    are held by the time values [new Date(...)] gives them. *)
Record TimeBar := mkTimeBar {
  name : string;
  label : string;
  startDate : Z;
  endDate : Z;
  dateTimes : list Z
}.

(** The [options] argument of the constructor. *)
Module Options.
Record t := mk {
  selectedDate : jsopt Z;
  chartMargins : jsopt Margins.t;
  barHeight : jsopt Z;
  barMargin : jsopt Z;
  timebars : jsopt (list TimeBar)
}.
End Options.

(** [xScale]: a [d3.time.scale] with a two-point domain and range. *)
Record XScale := mkXScale {
  x_domain : date * date;
  x_range : Z * Z
}.

(** [yScale]: [d3.scale.linear().domain([0, n]).range([0, h])]. *)
Record YScale := mkYScale {
  y_lanes : nat;
  y_height : num
}.

(** The visual elements of one lane.  [redraw] joins four selections
    (separator line, bar, detail group, label) to [this.timebars] by index;
    they enter and exit together, so one record stands for the four.  What
    is written on entry only (lane position and colour index, label text,
    detail lines) stays as entered; the bound datum follows every join. *)
Record Lane := mkLane {
  lane_index : nat;
  lane_label : string;
  lane_details : list Z;
  lane_datum : TimeBar
}.

(** What [redraw] has painted: the lanes, the [x1] of the now line, the [x]
    of the selected-date marker ([None]: not a number), and the data bound
    by each [redraw] so far, oldest first. *)
Record View := mkView {
  lanes : list Lane;
  nowLine : option Z;
  selectedDateLine : option Z;
  redraws : list (list TimeBar)
}.

(** The widget object ([this]).  The axis is kept apart, in
    [Doubles.Axis]. *)
Record Widget := mkWidget {
  visible : bool;
  timebars : list TimeBar;
  barHeight : jsval;
  barMargin : jsval;
  now : Z;
  selectedDate : date;
  margin : Margins.t;
  laneHeight : num;
  height : num;
  chartHeight : num;
  chartWidth : Z;
  width : Z;
  xScale : XScale;
  yScale : YScale;
  draggedDate : date;
  view : View
}.

(** Field updates of the widget object. *)
Definition set_visible (v : bool) (st : Widget) : Widget :=
  mkWidget v (timebars st) (barHeight st) (barMargin st) (now st)
    (selectedDate st) (margin st) (laneHeight st) (height st) (chartHeight st)
    (chartWidth st) (width st) (xScale st) (yScale st) (draggedDate st) (view st).

Definition set_timebars (bars : list TimeBar) (st : Widget) : Widget :=
  mkWidget (visible st) bars (barHeight st) (barMargin st) (now st)
    (selectedDate st) (margin st) (laneHeight st) (height st) (chartHeight st)
    (chartWidth st) (width st) (xScale st) (yScale st) (draggedDate st) (view st).

Definition set_selectedDate (d : date) (st : Widget) : Widget :=
  mkWidget (visible st) (timebars st) (barHeight st) (barMargin st) (now st)
    d (margin st) (laneHeight st) (height st) (chartHeight st)
    (chartWidth st) (width st) (xScale st) (yScale st) (draggedDate st) (view st).

Definition set_heights (h ch : num) (st : Widget) : Widget :=
  mkWidget (visible st) (timebars st) (barHeight st) (barMargin st) (now st)
    (selectedDate st) (margin st) (laneHeight st) h ch
    (chartWidth st) (width st) (xScale st) (yScale st) (draggedDate st) (view st).

Definition set_widths (cw w : Z) (st : Widget) : Widget :=
  mkWidget (visible st) (timebars st) (barHeight st) (barMargin st) (now st)
    (selectedDate st) (margin st) (laneHeight st) (height st) (chartHeight st)
    cw w (xScale st) (yScale st) (draggedDate st) (view st).

Definition set_xScale (xs : XScale) (st : Widget) : Widget :=
  mkWidget (visible st) (timebars st) (barHeight st) (barMargin st) (now st)
    (selectedDate st) (margin st) (laneHeight st) (height st) (chartHeight st)
    (chartWidth st) (width st) xs (yScale st) (draggedDate st) (view st).

Definition set_yScale (ys : YScale) (st : Widget) : Widget :=
  mkWidget (visible st) (timebars st) (barHeight st) (barMargin st) (now st)
    (selectedDate st) (margin st) (laneHeight st) (height st) (chartHeight st)
    (chartWidth st) (width st) (xScale st) ys (draggedDate st) (view st).

Definition set_draggedDate (d : date) (st : Widget) : Widget :=
  mkWidget (visible st) (timebars st) (barHeight st) (barMargin st) (now st)
    (selectedDate st) (margin st) (laneHeight st) (height st) (chartHeight st)
    (chartWidth st) (width st) (xScale st) (yScale st) d (view st).

Definition set_view (v : View) (st : Widget) : Widget :=
  mkWidget (visible st) (timebars st) (barHeight st) (barMargin st) (now st)
    (selectedDate st) (margin st) (laneHeight st) (height st) (chartHeight st)
    (chartWidth st) (width st) (xScale st) (yScale st) (draggedDate st) v.

(** ** d3 (external library): extrema, the time scale and the data join *)

(** [d3.min(array, f)] over the values [f] gave, all of them numbers:
    [undefined] ([None]) on an empty array, otherwise the running minimum
    ([if (a > b) a = b]). *)
Definition d3_min (l : list Z) : option Z :=
  match l with
  | [] => None
  | a :: l' => Some (fold_left (fun a b => if (a >? b)%Z then b else a) l' a)
  end.

(** [d3.max(array, f)]: the running maximum ([if (b > a) a = b]). *)
Definition d3_max (l : list Z) : option Z :=
  match l with
  | [] => None
  | a :: l' => Some (fold_left (fun a b => if (b >? a)%Z then b else a) l' a)
  end.

(** [xScale(d)]: [d] is placed in the domain ([(d - d0) / (d1 - d0)], which
    d3 takes as 0 on a domain of zero length, as division by zero does in
    [Q]) and that fraction is interpolated over the range.  An invalid date
    in the domain or as argument gives [NaN] ([None]). *)
Definition scaleX (xs : XScale) (d : date) : option Q :=
  match x_domain xs, d with
  | (Some d0, Some d1), Some t =>
      let (r0, r1) := x_range xs in
      let u := inject_Z (t - d0) / inject_Z (d1 - d0) in
      Some (inject_Z r0 + inject_Z (r1 - r0) * u)
  | _, _ => None
  end.

(** [xScale.invert(x)]: the inverse interpolation, wrapped in [new Date]. *)
Definition invertX (xs : XScale) (x : option Q) : date :=
  match x_domain xs, x with
  | (Some d0, Some d1), Some x =>
      let (r0, r1) := x_range xs in
      let u := (x - inject_Z r0) / inject_Z (r1 - r0) in
      Some (toInteger (inject_Z d0 + inject_Z (d1 - d0) * u))
  | _, _ => None
  end.

(** A lane as its elements enter at index [i] with datum [d]. *)
Definition enterLane (i : nat) (d : TimeBar) : Lane :=
  mkLane i (label d) (dateTimes d) d.

(** [selection.data(values)] without a key function joins by index: the
    element at an index that has a datum keeps what it is and is bound to the
    new datum; a datum past the elements enters; an element past the data
    exits and is removed. *)
Fixpoint dataJoin (i : nat) (old : list Lane) (data : list TimeBar) : list Lane :=
  match data with
  | [] => []
  | d :: data' =>
      match old with
      | l :: old' =>
          mkLane (lane_index l) (lane_label l) (lane_details l) d
          :: dataJoin (S i) old' data'
      | [] => enterLane i d :: dataJoin (S i) [] data'
      end
  end.

(** [Array.prototype.splice(start, deleteCount)] with integer arguments: the
    array after the call. *)
Definition splice {A : Type} (start deleteCount : Z) (l : list A) : list A :=
  let len := Z.of_nat (length l) in
  let actualStart :=
    if (start <? 0)%Z then Z.max (len + start) 0 else Z.min start len in
  let actualDeleteCount := Z.min (Z.max deleteCount 0) (len - actualStart) in
  firstn (Z.to_nat actualStart) l
  ++ skipn (Z.to_nat actualStart + Z.to_nat actualDeleteCount) l.

(** ** The widget's methods *)

(** [reHeight] (lines 298-303). *)
Definition reHeight (st : Widget) : Widget :=
  let h := nmul (laneHeight st) (Fin (Z.of_nat (length (timebars st)))) in
  let h := if is_zero h then Fin 25 else h in
  let m := margin st in
  set_heights h
    (nadd (nadd (nadd h (Fin (Margins.top m))) (Fin (Margins.bottom m))) (Fin 20))
    st.

(** [reWidth] (lines 306-309); [containerWidth] is what
    [$('div#' + this.id).width()] reads at the call. *)
Definition reWidth (containerWidth : Z) (st : Widget) : Widget :=
  let m := margin st in
  set_widths containerWidth
    (containerWidth - Margins.right m - Margins.left m)%Z st.

(** [redraw] (lines 187-295): the scales are re-derived from the current
    width, bar count and height, the lanes are joined to [this.timebars],
    and the two markers are placed.  What it does with the axis (lines
    203-220) is [Doubles.redrawAxis]. *)
Definition redraw (st : Widget) : Widget :=
  let xs := mkXScale (x_domain (xScale st)) (0%Z, width st) in
  let ys := mkYScale (length (timebars st)) (height st) in
  let v := view st in
  set_view
    (mkView (dataJoin 0 (lanes v) (timebars st))
            (option_map (fun x => d3_round (x + 0.5)) (scaleX xs (Some (now st))))
            (option_map (fun x => d3_round (x - 1.5)) (scaleX xs (selectedDate st)))
            (redraws v ++ [timebars st]))
    (set_yScale ys (set_xScale xs st)).

(** The property initialisation of the constructor (lines 92-98). *)
Definition init_timebars (o : Options.t) : list TimeBar :=
  match Options.timebars o with
  | Given l => l
  | _ => []
  end.

Definition init_barHeight (o : Options.t) : jsval :=
  match Options.barHeight o with
  | Null => JNum 20
  | Absent => JUndefined
  | Given n => JNum n
  end.

Definition init_barMargin (o : Options.t) : jsval :=
  match Options.barMargin o with
  | Null => JNum 4
  | Absent => JUndefined
  | Given n => JNum n
  end.

(** [new Date()] is [clock]; [new Date(undefined)] is an invalid date. *)
Definition init_selectedDate (o : Options.t) (clock : Z) : date :=
  match Options.selectedDate o with
  | Null => Some clock
  | Absent => None
  | Given t => Some t
  end.

Definition init_margin (o : Options.t) : Margins.t :=
  match Options.chartMargins o with
  | Given m => m
  | _ => Margins.zero
  end.

Definition init_laneHeight (bh bm : jsval) : num :=
  nadd (nadd (toNumber bh) (nmul (toNumber bm) (Fin 2))) (Fin 1).

(** The initial x domain (lines 106-114). *)
Definition init_domain (bars : list TimeBar) (selected : date) : date * date :=
  let minDate :=
    match d3_min (map startDate bars) with
    | Some t => Some t
    | None => option_map (fun t => t - 15778450000)%Z selected
    end in
  let maxDate :=
    match d3_max (map endDate bars) with
    | Some t => Some t
    | None => option_map (fun t => t + 15778450000)%Z selected
    end in
  (minDate, maxDate).

(** The constructor [opec.TimeLine(id, options)] (lines 78-184).
    [container] is [None] when no [div] with the given id exists, otherwise
    the width of that [div]; [clock] is the time [new Date()] reads.  Without
    the container nothing is initialised ([None]).  The heights, widths and
    scales of the first record are placeholders for fields not yet assigned:
    [reHeight], [reWidth] and the two scale assignments overwrite them before
    anything reads them. *)
Definition TimeLine (container : option Z) (options : Options.t) (clock : Z)
  : option Widget :=
  match container with
  | None => None
  | Some containerWidth =>
      let bars := init_timebars options in
      let bh := init_barHeight options in
      let bm := init_barMargin options in
      let sel := init_selectedDate options clock in
      let st :=
        mkWidget true bars bh bm clock sel (init_margin options)
          (init_laneHeight bh bm) NaN NaN 0 0
          (mkXScale (None, None) (0%Z, 0%Z)) (mkYScale 0 NaN)
          sel (mkView [] None None []) in
      let st := reWidth containerWidth (reHeight st) in
      let st :=
        set_xScale (mkXScale (init_domain bars sel) (0%Z, width st)) st in
      let st := set_yScale (mkYScale (length bars) (height st)) st in
      Some (redraw st)
  end.

(** The window resize handler (lines 180-183). *)
Definition resize (containerWidth : Z) (st : Widget) : Widget :=
  if visible st then redraw (reWidth containerWidth st) else st.

(** [dragDate] (lines 143-151) with the scale computed exactly; [dx] is
    [d3.event.dx].  [Doubles.dragDateF] is the handler on doubles. *)
Definition dragDate (dx : Q) (st : Widget) : Widget :=
  let xs := xScale st in
  let x := option_map (fun x => x + dx) (scaleX xs (draggedDate st)) in
  let x :=
    option_map
      (fun x =>
         if Qltb (inject_Z (fst (x_range xs))) x
            && Qltb x (inject_Z (snd (x_range xs)))
         then x else x - dx) x in
  let st := set_draggedDate (invertX xs x) st in
  let v := view st in
  set_view
    (mkView (lanes v) (nowLine v)
            (option_map (fun x => d3_round (x - 1.5)) (scaleX xs (draggedDate st)))
            (redraws v))
    st.

(** [dragDateEnd] (lines 152-160): the dragged date is committed; the date
    picker and the map are then told the new date. *)
Definition dragDateEnd (st : Widget) : Widget :=
  set_selectedDate (draggedDate st) st.

(** A drag gesture: one [dragDate] per pointer move. *)
Definition dragBy (dxs : list Q) (st : Widget) : Widget :=
  fold_left (fun st dx => dragDate dx st) dxs st.

(** [hide] and [show] (lines 330-343): beside the animations, the flag. *)
Definition hide (st : Widget) : Widget := set_visible false st.
Definition show (st : Widget) : Widget := set_visible true st.

(** [addTimeBarJSON] (lines 346-350). *)
Definition addTimeBarJSON (timeBar : TimeBar) (st : Widget) : Widget :=
  redraw (reHeight (set_timebars (timebars st ++ [timeBar]) st)).

(** [addTimeBar] (lines 353-363). *)
Definition addTimeBar (name label : string) (startDate endDate : Z)
  (dateTimes : list Z) (st : Widget) : Widget :=
  let newTimebar := mkTimeBar name label startDate endDate dateTimes in
  redraw (reHeight (set_timebars (timebars st ++ [newTimebar]) st)).

(** The clear-and-restore redraw shared by the two removals: with [temp] the
    altered array, draw no bars, then draw [temp]. *)
Definition clearAndRestore (temp : list TimeBar) (st : Widget) : Widget :=
  let st := redraw (reHeight (set_timebars [] st)) in
  redraw (reHeight (set_timebars temp st)).

(** [removeTimeBar] (lines 366-377). *)
Definition removeTimeBar (index : Z) (st : Widget) : Widget :=
  let temp := splice index 1 (timebars st) in
  clearAndRestore temp st.

(** A value together with the equation that names it, for the recursion
    below to remember which test it took. *)
Definition inspect {A : Type} (a : A) : {b : A | a = b} := exist _ a eq_refl.

(** The [for] loop of [removeTimeBarByName] (lines 383-389) from index [i]
    on, with the array and the [match] flag as they stand: a bar with the
    given name is spliced out and the index stays ([i--] then [i++]),
    otherwise the index moves on.  [name == ...] compares two strings. *)
Equations? removeLoop (nm : string) (bars : list TimeBar) (i : nat)
  (found : bool) : list TimeBar * bool by wf (length bars - i)%nat lt :=
removeLoop nm bars i found with inspect (nth_error bars i) := {
  | exist _ None _ := (bars, found);
  | exist _ (Some b) Hb with inspect (String.eqb (name b) nm) := {
      | exist _ true _ := removeLoop nm (splice (Z.of_nat i) 1 bars) i true;
      | exist _ false _ := removeLoop nm bars (S i) found } }.
Proof.
  - assert (Hi : (i < length bars)%nat) by (apply nth_error_Some; congruence).
    unfold splice.
    replace (Z.of_nat i <? 0)%Z with false by (symmetry; apply Z.ltb_ge; lia).
    rewrite Z.min_l by lia.
    rewrite Z.min_l by lia.
    rewrite Nat2Z.id. rewrite length_app, length_firstn, length_skipn.
    change (Z.to_nat (Z.max 1 0)) with 1%nat. lia.
  - assert (Hi : (i < length bars)%nat) by (apply nth_error_Some; congruence).
    lia.
Qed.

(** [removeTimeBarByName] (lines 380-403). *)
Definition removeTimeBarByName (nm : string) (st : Widget) : Widget :=
  let (temp, found) := removeLoop nm (timebars st) 0 false in
  if negb found then st else clearAndRestore temp st.

(** [zoomDate] (lines 320-327).  [startDate] and [endDate] stand for the
    dates [new Date(startDate)] and [new Date(endDate)].  Both are [Date]
    objects whatever the arguments, so the [instanceof] tests always take the
    new dates; [this.minDate] and [this.maxDate] are written and read back
    inside the call only and are not kept in the state. *)
Definition zoomDate (startDate endDate : date) (st : Widget) : Widget :=
  redraw (set_xScale (mkXScale (startDate, endDate) (x_range (xScale st))) st).

(** [setDate] (lines 406-412); [d] stands for [new Date(date)].  The marker
    is given the [x] its transition ends on. *)
Definition setDate (d : date) (st : Widget) : Widget :=
  let st := set_selectedDate d (set_draggedDate d st) in
  let v := view st in
  set_view
    (mkView (lanes v) (nowLine v)
            (option_map (fun x => d3_round (x - 1.5))
                        (scaleX (xScale st) (selectedDate st)))
            (redraws v))
    st.

(** ** Calls on the widget *)

(** One call of the widget's interface, or one event it handles. *)
Inductive Action :=
| AddTimeBarJSON (timeBar : TimeBar)
| AddTimeBar (name label : string) (startDate endDate : Z) (dateTimes : list Z)
| RemoveTimeBar (index : Z)
| RemoveTimeBarByName (nm : string)
| Resize (containerWidth : Z)
| ZoomDate (startDate endDate : date)
| SetDate (d : date)
| DragDate (dx : Q)
| DragDateEnd
| Hide
| Show.

Definition act (a : Action) (st : Widget) : Widget :=
  match a with
  | AddTimeBarJSON b => addTimeBarJSON b st
  | AddTimeBar n l s e d => addTimeBar n l s e d st
  | RemoveTimeBar i => removeTimeBar i st
  | RemoveTimeBarByName nm => removeTimeBarByName nm st
  | Resize cw => resize cw st
  | ZoomDate s e => zoomDate s e st
  | SetDate d => setDate d st
  | DragDate dx => dragDate dx st
  | DragDateEnd => dragDateEnd st
  | Hide => hide st
  | Show => show st
  end.

Definition run (acts : list Action) (st : Widget) : Widget :=
  fold_left (fun st a => act a st) acts st.

(** ** gisportal.graphs.create (graphing.js, lines 24-50) *)

Module graphs.
Section Create.
(** A graph element, and the two builders [gisportal.graphs.timeseries] and
    [gisportal.graphs.histogram] (not part of this file); a builder's [None]
    is a falsy result. *)
Variable Graph : Type.

(** The [data] object: [error] and [type] may be absent or [null]. *)
Record Data := mkData {
  error : jsopt string;
  type : jsopt string;
  coverage : string
}.

Variable Opts : Type.
Variable timeseries : Data -> Opts -> option Graph.
Variable histogram : Data -> Opts -> option Graph.

(** What a call does to the page. *)
Inductive Effect :=
| ShowNotification (err : jsopt string)
| Append (coverage : string) (graph : Graph).

(** The [switch] on [data.type] (strict equality with the case strings). *)
Definition build (data : Data) (options : Opts) : option Graph :=
  match type data with
  | Given t =>
      if String.eqb t "timeseries" then timeseries data options
      else if String.eqb t "histogram" then histogram data options
      else None
  | _ => None
  end.

Definition create (data : Data) (options : Opts) : list Effect :=
  match error data with
  | Given EmptyString =>
      match build data options with
      | Some graph => [Append (coverage data) graph]
      | None => []
      end
  | e => [ShowNotification e]
  end.
End Create.
End graphs.

(** ** The axis swap of gisportal.Vector.loadFeatures (vector_layer.js,
    lines 136-143) *)

Section SwapXY.
(** An array cell; [undefined] is what a read past the end gives. *)
Variable Cell : Type.
Variable undefined : Cell.

(** [coords[j] = v] for [j <= coords.length]: a write at the length extends
    the array by one. *)
Fixpoint write (j : nat) (v : Cell) (coords : list Cell) : list Cell :=
  match j, coords with
  | O, [] => [v]
  | O, _ :: rest => v :: rest
  | S j', [] => undefined :: write j' v []
  | S j', c :: rest => c :: write j' v rest
  end.

(** The [for] loop of the transform from index [j] on.  [fuel] bounds the
    number of iterations; [None] is a loop still running when it is used up
    (a zero [stride] never ends). *)
Fixpoint swapLoop (fuel stride j : nat) (coords : list Cell)
  : option (list Cell) :=
  if (j <? length coords)%nat then
    match fuel with
    | O => None
    | S fuel' =>
        let y := nth j coords undefined in
        let x := nth (j + 1) coords undefined in
        let coords := write j x coords in
        let coords := write (j + 1) y coords in
        swapLoop fuel' stride (j + stride) coords
    end
  else Some coords.
End SwapXY.

(** * The arithmetic in doubles

    The widget computes with IEEE 754 binary64 numbers.  Where a result
    depends on their rounding (the steps of the tick policy, the drag
    handler) the code is read here over the primitive doubles, whose
    operations are the ones JavaScript performs. *)

Module Doubles.
Import Stdlib.Floats.PrimFloat Stdlib.Floats.SpecFloat Stdlib.Floats.FloatOps
  Stdlib.Floats.FloatAxioms.
Local Open Scope float_scope.

(** ** Numbers *)

(** The double of an integer below [2^63] in size (exact below [2^53], which
    every time value of a [Date] and every pixel count is). *)
Definition Z2F (z : Z) : float :=
  if (z <? 0)%Z then - of_uint63 (Uint63.of_Z (- z))
  else of_uint63 (Uint63.of_Z z).

(** The rational a finite double stands for. *)
Definition SF2Q (f : spec_float) : option Q :=
  match f with
  | S754_zero _ => Some 0%Q
  | S754_finite s m e => Some (inject_Z (cond_Zopp s (Zpos m)) * 2 ^ e)%Q
  | _ => None
  end.

Definition F2Q (x : float) : option Q := SF2Q (Prim2SF x).

(** The result of [Math.round]: an integer, an infinity or [NaN]. *)
Inductive rounded :=
| RInt (k : Z)
| RInfinity (negative : bool)
| RNaN.

(** [d3.round(x)] is [Math.round(x)]: on a finite [x] the integer nearest
    to its value, the upper one at a tie; an infinity or [NaN] is returned
    as it is. *)
Definition d3_roundF (x : float) : rounded :=
  match Prim2SF x with
  | S754_nan => RNaN
  | S754_infinity s => RInfinity s
  | f =>
      match SF2Q f with
      | Some v => RInt (d3_round v)
      | None => RNaN
      end
  end.

(** ** getNearestInArray (lines 61-69) in doubles *)

Definition nearest_stepF (goal : float) (closest : option float) (e : float)
  : option float :=
  match closest with
  | None => Some e
  | Some c => if abs (e - goal) <? abs (c - goal) then Some e else closest
  end.

Definition getNearestInArrayF (arr : list float) (goal : float) : option float :=
  fold_left (nearest_stepF goal) arr None.

(** ** The tick policy (lines 205-220) in doubles *)

(** The value handed to [xAxis.ticks] as step: what [d3.round] returned, or
    what [getNearestInArray] returned ([None] for [null]). *)
Inductive Step :=
| Rounded (r : rounded)
| Picked (m : option float).

Record TicksF := mkTicksF {
  intervalF : Interval;
  stepF : Step;
  tickFormatF : string
}.

(** Line 205; [d0] and [d1] are the time values of the domain's dates and
    [width] is [this.width]. *)
Definition scalingF (d0 d1 : Z) (width : float) : float :=
  (Z2F d1 - Z2F d0) / (width * 4e7).

Definition monthStepsF : list float := [1; 2; 3; 4; 6; 12].

(** Lines 206-220.  The literal [4.3] is the double nearest to 4.3, which
    is the quotient [43 / 10]; [1/7] and [1/365] are the quotients the code
    computes.  A [NaN] scaling fails every test: [None] is the axis left
    with the ticks it had. *)
Definition tickPolicyF (scaling : float) : option TicksF :=
  if 12 <? scaling then
    Some (mkTicksF Years (Rounded (d3_roundF (scaling / 12))) "%Y")
  else if (scaling <=? 12) && (1 <? scaling) then
    Some (mkTicksF Months (Picked (getNearestInArrayF monthStepsF scaling))
            "%b %y")
  else if (scaling <=? 1) && (1 / 7 <? scaling) then
    Some (mkTicksF Weeks (Rounded (d3_roundF (scaling * (43 / 10))))
            "%d/%m/%y")
  else if (scaling <=? 1 / 7) && (1 / 365 <? scaling) then
    Some (mkTicksF Days (Rounded (d3_roundF (scaling * 30))) "%d/%m/%y")
  else if scaling <=? 1 / 365 then
    Some (mkTicksF Hours (Rounded (d3_roundF (scaling * 730))) "%I %p")
  else None.

Definition tickIntervalF (scaling : float) : option Interval :=
  option_map intervalF (tickPolicyF scaling).

(** ** d3's linear scale in doubles (external library)

    d3 version 3 has computed the two halves of a linear scale in two ways
    each; a [D3] says which pair a release uses. *)
Record D3 := mkD3 {
  (** [uninterpolate]: [(x - a) / b] with [b = (b - a) || 1 / (b - a)], or
      else [(x - a) * b] with [b = (b - a) ? 1 / (b - a) : 0] *)
  uninterpolateDivides : bool;
  (** [interpolate]: [a * (1 - t) + b * t], or else [a + (b - a) * t] *)
  interpolateBlends : bool
}.

(** A number is truthy unless it is zero or [NaN]. *)
Definition truthy (x : float) : bool := negb (x =? 0) && (x =? x).

Definition uninterpolate (v : D3) (a b x : float) : float :=
  let d := b - a in
  if uninterpolateDivides v
  then (x - a) / (if truthy d then d else 1 / d)
  else (x - a) * (if truthy d then 1 / d else 0).

Definition interpolate (v : D3) (a b t : float) : float :=
  if interpolateBlends v then a * (1 - t) + b * t else a + (b - a) * t.

(** The number of a date: its time value, [NaN] for an invalid date. *)
Definition dateF (d : date) : float :=
  match d with
  | Some t => Z2F t
  | None => nan
  end.

(** [new Date(x)]: the time value is [x] truncated towards zero; a
    non-finite [x] and a time value beyond 8.64e15 give an invalid date. *)
Definition newDate (x : float) : date :=
  match Prim2SF x with
  | S754_zero _ => Some 0%Z
  | S754_finite s m e =>
      let t := match e with
               | Zneg p => Z.shiftr (Zpos m) (Zpos p)
               | _ => (Zpos m * 2 ^ e)%Z
               end in
      if (t <=? 8640000000000000)%Z then Some (cond_Zopp s t) else None
  | _ => None
  end.

(** [xScale(d)] and [xScale.invert(x)] *)
Definition scaleXF (v : D3) (xs : XScale) (d : date) : float :=
  interpolate v (Z2F (fst (x_range xs))) (Z2F (snd (x_range xs)))
    (uninterpolate v (dateF (fst (x_domain xs))) (dateF (snd (x_domain xs)))
       (dateF d)).

Definition invertXF (v : D3) (xs : XScale) (x : float) : date :=
  newDate
    (interpolate v (dateF (fst (x_domain xs))) (dateF (snd (x_domain xs)))
       (uninterpolate v (Z2F (fst (x_range xs))) (Z2F (snd (x_range xs))) x)).

(** The [x] attribute written from [d3.round]: [None] when not an integer. *)
Definition attrOf (r : rounded) : option Z :=
  match r with
  | RInt k => Some k
  | _ => None
  end.

(** The pixel [dragDate] goes on with (lines 144-146). *)
Definition dragPixel (v : D3) (dx : float) (st : Widget) : float :=
  let xs := xScale st in
  let x := scaleXF v xs (draggedDate st) + dx in
  if (Z2F (fst (x_range xs)) <? x) && (x <? Z2F (snd (x_range xs)))
  then x else x - dx.

(** [dragDate] (lines 143-151) in doubles; [dx] is [d3.event.dx]. *)
Definition dragDateF (v : D3) (dx : float) (st : Widget) : Widget :=
  let xs := xScale st in
  let st := set_draggedDate (invertXF v xs (dragPixel v dx st)) st in
  let vw := view st in
  set_view
    (mkView (lanes vw) (nowLine vw)
            (attrOf (d3_roundF (scaleXF v xs (draggedDate st) - 1.5)))
            (redraws vw))
    st.

(** ** The axis (lines 170-171 and 203-220)

    [xAxis] keeps the arguments last given to [ticks] and [tickFormat];
    the axis group shows what the last [.call(this.xAxis)] drew. *)

(** What a call of the axis draws: ticks by the arguments the axis has at
    the call ([None]: those d3 gives a new axis) on the scale as it is at
    the call, in a group translated down by [y]. *)
Record DrawnAxis := mkDrawnAxis {
  drawn_ticks : option TicksF;
  drawn_scale : XScale;
  drawn_y : num
}.

Record Axis := mkAxis {
  (** the arguments of [this.xAxis]; [None] before [ticks] is called *)
  ticksArgs : option TicksF;
  (** the content of the axis group; [None] before the axis is called *)
  drawnAxis : option DrawnAxis
}.

(** Lines 170-171. *)
Definition newAxis : Axis := mkAxis None None.

(** [d3.round(this.height + 0.5)] *)
Definition axisY (h : num) : num :=
  match h with
  | Fin z => Fin (z + 1)
  | NaN => NaN
  end.

(** Line 205 on the widget. *)
Definition scalingOf (st : Widget) : float :=
  (dateF (snd (x_domain (xScale st))) - dateF (fst (x_domain (xScale st))))
  / (Z2F (width st) * 4e7).

(** What [redraw] does with the axis: line 203 draws it, on the scale
    whose range line 192 has just set, with the arguments it has; lines
    205-220 then give it new arguments, or none when no test holds. *)
Definition redrawAxis (st : Widget) (ax : Axis) : Axis :=
  mkAxis
    (match tickPolicyF (scalingOf st) with
     | Some t => Some t
     | None => ticksArgs ax
     end)
    (Some (mkDrawnAxis (ticksArgs ax)
             (mkXScale (x_domain (xScale st)) (0%Z, width st))
             (axisY (height st)))).
End Doubles.

(** * Properties *)

(** ** Properties of getNearestInArray *)

Section Nearest.
Variable goal : Q.

(** [e], found at index [i] of [pre], is nearest to [goal] in [pre] and is
    the first such element. *)
Definition nearest_in (pre : list Q) (e : Q) (i : nat) : Prop :=
  nth_error pre i = Some e /\
  (forall e', In e' pre -> Qabs (e - goal) <= Qabs (e' - goal)) /\
  (forall j e', (j < i)%nat -> nth_error pre j = Some e' ->
                Qabs (e - goal) < Qabs (e' - goal)).

Lemma nearest_in_snoc_keep pre e i x :
  nearest_in pre e i -> Qabs (e - goal) <= Qabs (x - goal) ->
  nearest_in (pre ++ [x]) e i.
Proof.
  intros (Hn & Hmin & Hfst) Hle. repeat split.
  - rewrite nth_error_app1; [exact Hn|].
    apply nth_error_Some. congruence.
  - intros e' Hin. apply in_app_or in Hin as [Hin|[<-|[]]]; auto.
  - intros j e' Hj He'. apply (Hfst j e' Hj).
    assert (i < length pre)%nat by (apply nth_error_Some; congruence).
    rewrite nth_error_app1 in He' by lia. exact He'.
Qed.

Lemma nearest_in_snoc_take pre e i x :
  nearest_in pre e i -> Qabs (x - goal) < Qabs (e - goal) ->
  nearest_in (pre ++ [x]) x (length pre).
Proof.
  intros (Hn & Hmin & Hfst) Hlt. repeat split.
  - rewrite nth_error_app2, Nat.sub_diag by lia. reflexivity.
  - intros e' Hin. apply in_app_or in Hin as [Hin|[<-|[]]].
    + apply Qlt_le_weak. eapply Qlt_le_trans; [exact Hlt|auto].
    + apply Qle_refl.
  - intros j e' Hj He'. rewrite nth_error_app1 in He' by lia.
    eapply Qlt_le_trans; [exact Hlt|]. apply Hmin.
    eapply nth_error_In; eassumption.
Qed.

Lemma fold_nearest rest : forall pre e i,
  nearest_in pre e i ->
  exists e' i', fold_left (nearest_step goal) rest (Some e) = Some e' /\
                nearest_in (pre ++ rest) e' i'.
Proof.
  induction rest as [|x rest IH]; intros pre e i Hinv.
  - exists e, i. rewrite app_nil_r. split; [reflexivity|exact Hinv].
  - cbn [fold_left nearest_step].
    replace (pre ++ x :: rest) with ((pre ++ [x]) ++ rest)
      by (rewrite <- app_assoc; reflexivity).
    destruct (Qltb (Qabs (x - goal)) (Qabs (e - goal))) eqn:E.
    + apply Qltb_lt in E. eapply IH, nearest_in_snoc_take; eassumption.
    + apply Qltb_ge in E. eapply IH, nearest_in_snoc_keep; eassumption.
Qed.

Lemma getNearestInArray_spec arr :
  arr <> [] ->
  exists e i, getNearestInArray arr goal = Some e /\ nearest_in arr e i.
Proof.
  destruct arr as [|x rest]; [congruence|intros _].
  unfold getNearestInArray. cbn [fold_left nearest_step].
  apply (fold_nearest rest (pre := [x]) (e := x) (i := 0%nat)).
  repeat split.
  - intros e' [<-|[]]. apply Qle_refl.
  - intros j e' Hj. lia.
Qed.
End Nearest.

(** C8: on a non-empty array [getNearestInArray] returns an element of the
  array whose absolute difference to [goal] is minimal, and among equally
  near elements the one that occurs first: every element before it is
  strictly farther from [goal]. *)
Theorem getNearestInArray_first_minimal (arr : list Q) (goal : Q) :
arr <> [] ->
exists e i,
  getNearestInArray arr goal = Some e /\
  nth_error arr i = Some e /\
  (forall e', In e' arr -> Qabs (e - goal) <= Qabs (e' - goal)) /\
  (forall j e', (j < i)%nat -> nth_error arr j = Some e' ->
                Qabs (e - goal) < Qabs (e' - goal)).
Proof.
intro Hne. destruct (getNearestInArray_spec goal Hne) as (e & i & Hg & Hinv).
exists e, i. split; [exact Hg|exact Hinv].
Qed.

Lemma getNearestInArray_first_minimal_witness :
[1; 2; 3; 4; 6; 12] <> [] /\
exists e i,
  getNearestInArray [1; 2; 3; 4; 6; 12] 5 = Some e /\
  nth_error [1; 2; 3; 4; 6; 12] i = Some e /\
  (forall e', In e' [1; 2; 3; 4; 6; 12] -> Qabs (e - 5) <= Qabs (e' - 5)) /\
  (forall j e', (j < i)%nat -> nth_error [1; 2; 3; 4; 6; 12] j = Some e' ->
                Qabs (e - 5) < Qabs (e' - 5)).
Proof.
split; [discriminate|].
apply (@getNearestInArray_first_minimal [1; 2; 3; 4; 6; 12] 5). discriminate.
Defined.

(** The tie between 4 and 6 around 5 goes to 4, the first of the two. *)
Example getNearestInArray_tie : getNearestInArray monthSteps 5 = Some 4.
Proof. reflexivity. Qed.

(** ** The threshold table of the tick policy *)

Section TickBranches.
Variable s : Q.

Local Ltac qconst :=
  change (1 / 7) with (1 # 7) in *; change (1 / 365) with (1 # 365) in *.
Local Ltac test_true := first
  [ apply Qltb_lt; qconst; lra | apply Qle_bool_iff; qconst; lra ].
Local Ltac test_false := first
  [ apply Qltb_ge; qconst; lra | apply Qle_bool_gt; qconst; lra ].

Lemma tickPolicy_years :
  12 < s ->
  tickPolicy s = Some (mkTicks Years (Some (inject_Z (d3_round (s / 12)))) "%Y").
Proof.
  intro H. unfold tickPolicy.
  replace (Qltb 12 s) with true by (symmetry; test_true). reflexivity.
Qed.

Lemma tickPolicy_months :
  1 < s -> s <= 12 ->
  tickPolicy s = Some (mkTicks Months (getNearestInArray monthSteps s) "%b %y").
Proof.
  intros H1 H2. unfold tickPolicy.
  replace (Qltb 12 s) with false by (symmetry; test_false).
  replace (Qle_bool s 12) with true by (symmetry; test_true).
  replace (Qltb 1 s) with true by (symmetry; test_true). reflexivity.
Qed.

Lemma tickPolicy_weeks :
  1 / 7 < s -> s <= 1 ->
  tickPolicy s =
  Some (mkTicks Weeks (Some (inject_Z (d3_round (s * 4.3)))) "%d/%m/%y").
Proof.
  intros H1 H2. unfold tickPolicy.
  replace (Qltb 12 s) with false by (symmetry; test_false).
  replace (Qltb 1 s) with false by (symmetry; test_false).
  replace (Qle_bool s 1) with true by (symmetry; test_true).
  replace (Qltb (1 / 7) s) with true by (symmetry; test_true).
  rewrite andb_false_r. reflexivity.
Qed.

Lemma tickPolicy_days :
  1 / 365 < s -> s <= 1 / 7 ->
  tickPolicy s =
  Some (mkTicks Days (Some (inject_Z (d3_round (s * 30)))) "%d/%m/%y").
Proof.
  intros H1 H2. unfold tickPolicy.
  replace (Qltb 12 s) with false by (symmetry; test_false).
  replace (Qltb 1 s) with false by (symmetry; test_false).
  replace (Qltb (1 / 7) s) with false by (symmetry; test_false).
  replace (Qle_bool s (1 / 7)) with true by (symmetry; test_true).
  replace (Qltb (1 / 365) s) with true by (symmetry; test_true).
  rewrite !andb_false_r. reflexivity.
Qed.

Lemma tickPolicy_hours :
  s <= 1 / 365 ->
  tickPolicy s =
  Some (mkTicks Hours (Some (inject_Z (d3_round (s * 730)))) "%I %p").
Proof.
  intros H. unfold tickPolicy.
  replace (Qltb 12 s) with false by (symmetry; test_false).
  replace (Qltb 1 s) with false by (symmetry; test_false).
  replace (Qltb (1 / 7) s) with false by (symmetry; test_false).
  replace (Qltb (1 / 365) s) with false by (symmetry; test_false).
  replace (Qle_bool s (1 / 365)) with true by (symmetry; test_true).
  rewrite !andb_false_r. reflexivity.
Qed.
End TickBranches.

(** ** Geometry *)

(** The height [reHeight] gives [n] bars of lane height [lh]. *)
Definition barsHeight (lh : Z) (n : nat) : Z :=
  match n with
  | O => 25
  | S _ => lh * Z.of_nat n
  end.

Lemma reHeight_height (st : Widget) (lh : Z) :
  laneHeight st = Fin lh -> (0 < lh)%Z ->
  height (reHeight st) = Fin (barsHeight lh (length (timebars st))).
Proof.
  intros Hl Hpos. unfold reHeight. cbn [height set_heights].
  rewrite Hl. cbn [nmul is_zero].
  destruct (length (timebars st)) as [|n] eqn:En.
  - rewrite Z.mul_0_r. reflexivity.
  - assert (lh * Z.of_nat (S n) <> 0)%Z by (apply Z.neq_mul_0; split; lia).
    replace (lh * Z.of_nat (S n) =? 0)%Z with false
      by (symmetry; apply Z.eqb_neq; assumption).
    reflexivity.
Qed.

Lemma reHeight_chartHeight (st : Widget) (h : Z) :
  height (reHeight st) = Fin h ->
  chartHeight (reHeight st)
  = Fin (h + Margins.top (margin st) + Margins.bottom (margin st) + 20).
Proof.
  unfold reHeight. cbn [height chartHeight set_heights].
  intros ->. reflexivity.
Qed.

Lemma init_laneHeight_num (bh bm : Z) :
  init_laneHeight (JNum bh) (JNum bm) = Fin (bh + 2 * bm + 1).
Proof. unfold init_laneHeight, toNumber, nmul, nadd. f_equal. lia. Qed.

(** The geometry contract, in the spec's words, for bar height [bh], bar
    margin [bm] and container width [cw]. *)
Definition geometry_ok (bh bm cw : Z) (st : Widget) : Prop :=
  let n := length (timebars st) in
  let m := margin st in
  let h := if Nat.eqb n 0 then 25%Z else ((bh + 2 * bm + 1) * Z.of_nat n)%Z in
  laneHeight st = Fin (bh + 2 * bm + 1) /\
  height st = Fin h /\
  chartHeight st = Fin (h + Margins.top m + Margins.bottom m + 20) /\
  width st = (cw - Margins.left m - Margins.right m)%Z.

Lemma geometry_after_recompute (bh bm cw : Z) (st : Widget) :
  (0 <= bh)%Z -> (0 <= bm)%Z ->
  laneHeight st = Fin (bh + 2 * bm + 1) ->
  geometry_ok bh bm cw (reWidth cw (reHeight st)).
Proof.
  intros Hbh Hbm Hl.
  assert (Hh := @reHeight_height st _ Hl ltac:(lia)).
  assert (Hc := reHeight_chartHeight st Hh).
  unfold geometry_ok. cbn zeta.
  change (timebars (reWidth cw (reHeight st))) with (timebars st).
  change (margin (reWidth cw (reHeight st))) with (margin st).
  change (laneHeight (reWidth cw (reHeight st))) with (laneHeight st).
  change (height (reWidth cw (reHeight st))) with (height (reHeight st)).
  change (chartHeight (reWidth cw (reHeight st)))
    with (chartHeight (reHeight st)).
  change (width (reWidth cw (reHeight st)))
    with (cw - Margins.right (margin st) - Margins.left (margin st))%Z.
  rewrite Hh, Hc.
  replace (if Nat.eqb (length (timebars st)) 0 then 25%Z
           else ((bh + 2 * bm + 1) * Z.of_nat (length (timebars st)))%Z)
    with (barsHeight (bh + 2 * bm + 1) (length (timebars st)))
    by (destruct (length (timebars st)); reflexivity).
  repeat split; [exact Hl|lia].
Qed.

(** C2: with non-negative [barHeight] and [barMargin], the constructed
    widget has [laneHeight = barHeight + 2*barMargin + 1], [height =
    laneHeight * n] for [n > 0] bars and 25 for none, [chartHeight = height +
    margin.top + margin.bottom + 20] and [width = containerWidth -
    margin.left - margin.right]; and so has every later state after
    [reHeight] and [reWidth], for its current bars and container width. *)
Theorem geometry_contract (bh bm cw clock : Z) (o : Options.t) :
  (0 <= bh)%Z -> (0 <= bm)%Z ->
  Options.barHeight o = Given bh -> Options.barMargin o = Given bm ->
  (exists st,
      TimeLine (Some cw) o clock = Some st /\
      length (timebars st) = length (init_timebars o) /\
      geometry_ok bh bm cw st) /\
  (forall st cw',
      laneHeight st = Fin (bh + 2 * bm + 1) ->
      geometry_ok bh bm cw' (reWidth cw' (reHeight st))).
Proof.
  intros Hbh Hbm Ebh Ebm. split.
  - eexists. split; [reflexivity|]. split; [reflexivity|].
    unfold init_barHeight, init_barMargin. rewrite Ebh, Ebm.
    match goal with
    | |- geometry_ok _ _ _ (redraw (set_yScale _ (set_xScale _ ?s))) =>
        change (geometry_ok bh bm cw s)
    end.
    apply geometry_after_recompute; try assumption.
    apply init_laneHeight_num.
  - intros st cw' Hl. apply geometry_after_recompute; assumption.
Qed.

Lemma geometry_contract_witness :
  (0 <= 20)%Z /\ (0 <= 4)%Z /\
  exists st,
    TimeLine (Some 1000%Z) (Options.mk Null Null (Given 20%Z) (Given 4%Z) Null) 0
    = Some st /\
    length (timebars st) = 0%nat /\
    geometry_ok 20 4 1000 st.
Proof.
  split; [lia|]. split; [lia|].
  apply (@geometry_contract 20 4 1000 0
           (Options.mk Null Null (Given 20%Z) (Given 4%Z) Null));
    [lia|lia|reflexivity|reflexivity].
Defined.

(** ** Removal by index *)

(** The list without its element at position [k]. *)
Definition removeAt {A : Type} (k : nat) (l : list A) : list A :=
  firstn k l ++ skipn (S k) l.

Section Splice.
Context {A : Type}.
Implicit Types l : list A.

Lemma splice_inside index l :
  (0 <= index < Z.of_nat (length l))%Z ->
  splice index 1 l = removeAt (Z.to_nat index) l.
Proof.
  intro H. unfold splice, removeAt.
  replace (index <? 0)%Z with false by (symmetry; apply Z.ltb_ge; lia).
  rewrite (Z.min_l index) by lia.
  rewrite Z.max_l, Z.min_l by lia.
  change (Z.to_nat 1) with 1%nat. rewrite Nat.add_1_r. reflexivity.
Qed.

Lemma splice_beyond index l :
  (Z.of_nat (length l) <= index)%Z -> splice index 1 l = l.
Proof.
  intro H. unfold splice.
  replace (index <? 0)%Z with false by (symmetry; apply Z.ltb_ge; lia).
  rewrite (Z.min_r index) by lia.
  rewrite Z.sub_diag, Z.max_l, Z.min_r by lia.
  rewrite Nat2Z.id, Nat.add_0_r. apply firstn_skipn.
Qed.

Lemma splice_from_end index l :
  (- Z.of_nat (length l) <= index < 0)%Z ->
  splice index 1 l = removeAt (Z.to_nat (Z.of_nat (length l) + index)) l.
Proof.
  intro H. unfold splice, removeAt.
  replace (index <? 0)%Z with true by (symmetry; apply Z.ltb_lt; lia).
  rewrite (Z.max_l (Z.of_nat (length l) + index)) by lia.
  rewrite Z.max_l, Z.min_l by lia.
  change (Z.to_nat 1) with 1%nat. rewrite Nat.add_1_r. reflexivity.
Qed.

Lemma removeAt_length k l :
  (k < length l)%nat -> length (removeAt k l) = pred (length l).
Proof.
  intro H. unfold removeAt.
  rewrite length_app, length_firstn, length_skipn. lia.
Qed.

Lemma removeAt_before k l j :
  (j < k)%nat -> nth_error (removeAt k l) j = nth_error l j.
Proof.
  intro H. unfold removeAt.
  destruct (Nat.lt_ge_cases j (length l)) as [Hj|Hj].
  - rewrite nth_error_app1 by (rewrite length_firstn; lia).
    rewrite nth_error_firstn.
    replace (j <? k)%nat with true by (symmetry; apply Nat.ltb_lt; exact H).
    reflexivity.
  - rewrite (proj2 (nth_error_None l j) Hj).
    apply nth_error_None.
    rewrite length_app, length_firstn, length_skipn. lia.
Qed.

Lemma removeAt_after k l j :
  (k < length l)%nat -> (k <= j)%nat ->
  nth_error (removeAt k l) j = nth_error l (S j).
Proof.
  intros Hk H. unfold removeAt.
  rewrite nth_error_app2 by (rewrite length_firstn; lia).
  rewrite length_firstn, Nat.min_l by lia.
  rewrite nth_error_skipn. f_equal. lia.
Qed.
End Splice.

Lemma clearAndRestore_timebars (temp : list TimeBar) (st : Widget) :
  timebars (clearAndRestore temp st) = temp.
Proof. reflexivity. Qed.

Lemma clearAndRestore_redraws (temp : list TimeBar) (st : Widget) :
  redraws (view (clearAndRestore temp st)) = redraws (view st) ++ [[]; temp].
Proof.
  unfold clearAndRestore, redraw. cbn. rewrite <- app_assoc. reflexivity.
Qed.

(** C10: [removeTimeBar(index)] on [n] bars follows [splice]: for [0 <= index
    < n] the bar at [index] is removed; for [index >= n] the bars are left as
    they are; for [index = -k] with [1 <= k <= n] the bar at [n - k] is
    removed.  In every case the display is redrawn twice, first with no bars
    and then with the bars that remain. *)
Theorem removeTimeBar_splice (index : Z) (st : Widget) :
  let n := Z.of_nat (length (timebars st)) in
  let st' := removeTimeBar index st in
  ((0 <= index < n)%Z ->
   timebars st' = removeAt (Z.to_nat index) (timebars st)) /\
  ((n <= index)%Z -> timebars st' = timebars st) /\
  (forall k : Z, (1 <= k <= n)%Z -> index = (- k)%Z ->
   timebars st' = removeAt (Z.to_nat (n - k)) (timebars st)) /\
  redraws (view st') = redraws (view st) ++ [[]; timebars st'].
Proof.
  intros n st'. subst n st'. unfold removeTimeBar.
  rewrite clearAndRestore_timebars, clearAndRestore_redraws.
  split; [apply splice_inside|].
  split; [apply splice_beyond|].
  split; [|reflexivity].
  intros k Hk ->. rewrite splice_from_end by lia. reflexivity.
Qed.

(** ** Height under additions and removals *)

Lemma splice_one_length {A : Type} (index : Z) (l : list A) :
  (- Z.of_nat (length l) <= index < Z.of_nat (length l))%Z ->
  length (splice index 1 l) = pred (length l).
Proof.
  intro H. destruct (Z.lt_ge_cases index 0) as [Hneg|Hpos].
  - rewrite splice_from_end by lia. apply removeAt_length. lia.
  - rewrite splice_inside by lia. apply removeAt_length. lia.
Qed.

Lemma height_after_add (bars : list TimeBar) (st : Widget) (lh : Z) :
  laneHeight st = Fin lh -> (0 < lh)%Z ->
  height (redraw (reHeight (set_timebars bars st)))
  = Fin (barsHeight lh (length bars)).
Proof.
  intros Hl Hpos.
  change (height (redraw (reHeight (set_timebars bars st))))
    with (height (reHeight (set_timebars bars st))).
  apply (@reHeight_height (set_timebars bars st) lh); assumption.
Qed.

Lemma height_after_clearAndRestore (temp : list TimeBar) (st : Widget) (lh : Z) :
  laneHeight st = Fin lh -> (0 < lh)%Z ->
  height (clearAndRestore temp st) = Fin (barsHeight lh (length temp)).
Proof.
  intros Hl Hpos. unfold clearAndRestore.
  apply height_after_add; assumption.
Qed.

Lemma splice_removing_length {A : Type} (index : Z) (l : list A) :
  (index < Z.of_nat (length l))%Z ->
  length (splice index 1 l) = pred (length l).
Proof.
  intro H. destruct (Z.lt_ge_cases index (- Z.of_nat (length l))) as [Hfar|Hin].
  - unfold splice.
    replace (index <? 0)%Z with true by (symmetry; apply Z.ltb_lt; lia).
    rewrite Z.max_r by lia. rewrite Z.sub_0_r.
    cbn [Z.to_nat firstn app Nat.add].
    destruct l as [|a l]; [reflexivity|].
    rewrite Z.max_l, Z.min_l by (cbn [length]; lia). reflexivity.
  - apply splice_one_length. lia.
Qed.

(** C5, as amended: in a state whose lane height [lh] is a positive number
    and whose height is the one [reHeight] computes for its bars, adding a
    bar to one or more bars increases the height by [lh], and adding the
    first bar sets it to [lh] (from 25); [removeTimeBar] with any index below
    the number of bars [n] removes one bar (counted from the end when
    negative, the first when below [-n]): with two or more bars the height
    decreases by [lh], and removing the only bar sets it to 25; with an
    index of [n] or more nothing is removed and the height stays. *)
Theorem height_add_remove (st : Widget) (lh h : Z) :
  laneHeight st = Fin lh -> (0 < lh)%Z ->
  height st = Fin h -> h = barsHeight lh (length (timebars st)) ->
  let n := length (timebars st) in
  (forall b, (1 <= n)%nat -> height (addTimeBarJSON b st) = Fin (h + lh)) /\
  (forall nm lb s e dts, (1 <= n)%nat ->
     height (addTimeBar nm lb s e dts st) = Fin (h + lh)) /\
  (forall b, n = 0%nat -> height (addTimeBarJSON b st) = Fin lh) /\
  (forall nm lb s e dts, n = 0%nat ->
     height (addTimeBar nm lb s e dts st) = Fin lh) /\
  (forall index, (2 <= n)%nat -> (index < Z.of_nat n)%Z ->
     height (removeTimeBar index st) = Fin (h - lh)) /\
  (forall index, n = 1%nat -> (index < 1)%Z ->
     height (removeTimeBar index st) = Fin 25) /\
  (forall index, (Z.of_nat n <= index)%Z ->
     height (removeTimeBar index st) = Fin h).
Proof.
  intros Hl Hpos Hh Eh n. subst n.
  assert (Hadd : forall b, height (redraw (reHeight
                   (set_timebars (timebars st ++ [b]) st)))
                 = Fin (lh * Z.of_nat (S (length (timebars st))))).
  { intro b. rewrite (@height_after_add _ st lh Hl Hpos).
    rewrite length_app, Nat.add_1_r. reflexivity. }
  assert (Hmany : (1 <= length (timebars st))%nat ->
                  (lh * Z.of_nat (S (length (timebars st))) = h + lh)%Z).
  { intro Hn. subst h. destruct (length (timebars st)) as [|m]; [lia|].
    cbn [barsHeight]. lia. }
  assert (Hrem : forall index,
             (index < Z.of_nat (length (timebars st)))%Z ->
             height (removeTimeBar index st)
             = Fin (barsHeight lh (pred (length (timebars st))))).
  { intros index Hi. unfold removeTimeBar.
    rewrite (@height_after_clearAndRestore _ st lh Hl Hpos).
    rewrite splice_removing_length by exact Hi. reflexivity. }
  split; [|split; [|split; [|split; [|split; [|split]]]]].
  - intros b Hn. unfold addTimeBarJSON. rewrite Hadd, Hmany by exact Hn.
    reflexivity.
  - intros nm lb s e dts Hn. unfold addTimeBar. cbn zeta.
    rewrite Hadd, Hmany by exact Hn. reflexivity.
  - intros b Hn. unfold addTimeBarJSON. rewrite Hadd, Hn. f_equal. lia.
  - intros nm lb s e dts Hn. unfold addTimeBar. cbn zeta.
    rewrite Hadd, Hn. f_equal. lia.
  - intros index Hn Hi. rewrite Hrem by exact Hi. subst h.
    destruct (length (timebars st)) as [|[|m]]; [lia|lia|].
    cbn [pred barsHeight]. f_equal. lia.
  - intros index Hn Hi. rewrite Hrem by (rewrite Hn; lia).
    rewrite Hn. reflexivity.
  - intros index Hi. unfold removeTimeBar.
    rewrite (@height_after_clearAndRestore _ st lh Hl Hpos).
    rewrite splice_beyond by exact Hi. rewrite Eh. reflexivity.
Qed.

(** The widget built with every option [null]: the defaults, no bars, a
    container 1000 pixels wide, the clock at 0. *)
Definition defaultWidget : option Widget :=
  TimeLine (Some 1000%Z) (Options.mk Null Null Null Null Null) 0.

(** Three bars of lane height 15 ([barHeight] 10, [barMargin] 2). *)
Definition threeBars : option Widget :=
  TimeLine (Some 1000%Z)
    (Options.mk Null Null (Given 10%Z) (Given 2%Z)
       (Given [mkTimeBar "a" "A" 0 10 []; mkTimeBar "b" "B" 5 20 [];
               mkTimeBar "c" "C" 7 30 []])) 0.

Lemma height_add_remove_witness :
  exists st,
    threeBars = Some st /\
    laneHeight st = Fin 15 /\ (0 < 15)%Z /\ height st = Fin 45 /\
    45%Z = barsHeight 15 (length (timebars st)) /\
    (forall b, height (addTimeBarJSON b st) = Fin 60) /\
    height (removeTimeBar 1 st) = Fin 30 /\
    height (removeTimeBar (-7) st) = Fin 30 /\
    height (removeTimeBar 3 st) = Fin 45.
Proof.
  eexists. split; [reflexivity|]. split; [reflexivity|]. split; [lia|].
  split; [reflexivity|]. split; [reflexivity|].
  match goal with
  | |- (forall b, height (addTimeBarJSON b ?s) = _) /\ _ =>
      destruct (@height_add_remove s 15 45 eq_refl eq_refl eq_refl eq_refl)
        as (Hadd & _ & _ & _ & Hrem & _ & Hstay)
  end.
  split; [intro b; apply (Hadd b); cbn; lia|].
  split; [apply (Hrem 1%Z); cbn; lia|].
  split; [apply (Hrem (-7)%Z); cbn; lia|].
  apply (Hstay 3%Z). cbn. lia.
Defined.

(** C5 as stated fails on the empty widget: the height is 25 and one lane
    is 29 high, and after [addTimeBarJSON] the height is 29, not 25 + 29.
    It also fails for a removal that removes nothing: with that one bar,
    [removeTimeBar(5)] leaves the height at 29, neither one lane less nor
    25. *)
Lemma add_first_bar_counterexample :
  exists st b,
    defaultWidget = Some st /\
    laneHeight st = Fin 29 /\
    height st = Fin 25 /\
    height (addTimeBarJSON b st) = Fin 29 /\
    height (addTimeBarJSON b st) <> nadd (height st) (laneHeight st) /\
    timebars (removeTimeBar 5 (addTimeBarJSON b st)) = [b] /\
    height (removeTimeBar 5 (addTimeBarJSON b st)) = Fin 29.
Proof.
  eexists. exists (mkTimeBar "a" "A" 0 1 []).
  split; [reflexivity|]. split; [reflexivity|]. split; [reflexivity|].
  split; [reflexivity|]. split; [cbn; discriminate|].
  split; reflexivity.
Qed.

(** ** Removal by name *)

Section ByName.
Variable nm : string.

(** The bars that stay: those whose name is not [nm]. *)
Definition keeps (b : TimeBar) : bool := negb (String.eqb (name b) nm).

Lemma skipn_nth_error {A : Type} (l : list A) (i : nat) (a : A) :
  nth_error l i = Some a -> skipn i l = a :: skipn (S i) l.
Proof.
  revert i. induction l as [|x l IH]; intros [|i] H; try discriminate.
  - injection H as ->. reflexivity.
  - cbn [nth_error] in H. rewrite !skipn_cons. apply IH, H.
Qed.

Lemma removeAt_firstn {A : Type} (l : list A) (i : nat) :
  (i < length l)%nat -> firstn i (removeAt i l) = firstn i l.
Proof.
  intro H. unfold removeAt.
  rewrite firstn_app, length_firstn, Nat.min_l, Nat.sub_diag by lia.
  rewrite firstn_firstn, Nat.min_id. cbn [firstn]. apply app_nil_r.
Qed.

Lemma removeAt_skipn {A : Type} (l : list A) (i : nat) :
  (i < length l)%nat -> skipn i (removeAt i l) = skipn (S i) l.
Proof.
  intro H. unfold removeAt.
  rewrite skipn_app, length_firstn, Nat.min_l, Nat.sub_diag by lia.
  rewrite skipn_all2 by (rewrite length_firstn; lia). reflexivity.
Qed.

(** The loop from index [i] keeps the first [i] bars, filters the rest, and
    raises the flag when one of the rest has the name. *)
Lemma removeLoop_filter (bars : list TimeBar) (i : nat) (found : bool) :
  removeLoop nm bars i found
  = (firstn i bars ++ filter keeps (skipn i bars),
     found || existsb (fun b => String.eqb (name b) nm) (skipn i bars)).
Proof.
  funelim (removeLoop nm bars i found).
  - clear Heqcall.
    assert (Hi : (length bars <= i)%nat) by (apply nth_error_None; assumption).
    rewrite skipn_all2, firstn_all2 by exact Hi.
    cbn. rewrite app_nil_r, orb_false_r. reflexivity.
  - clear Heqcall.
    assert (Hi : (i < length bars)%nat) by (apply nth_error_Some; congruence).
    match goal with IH : removeLoop _ _ _ _ = (_, _) |- _ => rewrite IH end.
    rewrite splice_inside, Nat2Z.id by lia.
    rewrite removeAt_firstn, removeAt_skipn by exact Hi.
    rewrite (skipn_nth_error _ _ Hb). cbn [filter existsb]. unfold keeps at 2.
    match goal with E : String.eqb _ _ = true |- _ => rewrite E end.
    cbn [negb orb]. rewrite orb_true_r. reflexivity.
  - clear Heqcall.
    match goal with IH : removeLoop _ _ _ _ = (_, _) |- _ => rewrite IH end.
    rewrite (skipn_nth_error _ _ Hb). cbn [filter existsb]. unfold keeps at 2.
    match goal with E : String.eqb _ _ = false |- _ => rewrite E end.
    cbn [negb orb].
    assert (Hf : firstn (S i) bars = firstn i bars ++ [b]).
    { rewrite <- (firstn_skipn i bars) at 1.
      assert (Hi : (i < length bars)%nat) by (apply nth_error_Some; congruence).
      rewrite firstn_app, length_firstn, Nat.min_l by lia.
      rewrite firstn_firstn, Nat.min_r by lia.
      replace (S i - i)%nat with 1%nat by lia.
      rewrite (skipn_nth_error _ _ Hb). reflexivity. }
    rewrite Hf, <- app_assoc. reflexivity.
Qed.
End ByName.

Lemma removeTimeBarByName_unfold (nm : string) (st : Widget) :
  removeTimeBarByName nm st
  = if existsb (fun b => String.eqb (name b) nm) (timebars st)
    then clearAndRestore (filter (keeps nm) (timebars st)) st
    else st.
Proof.
  unfold removeTimeBarByName. rewrite removeLoop_filter.
  cbn [firstn skipn app orb].
  destruct (existsb _ (timebars st)); reflexivity.
Qed.

Lemma filter_keeps_none (nm : string) (bars : list TimeBar) :
  existsb (fun b => String.eqb (name b) nm) bars = false ->
  filter (keeps nm) bars = bars.
Proof.
  induction bars as [|b bars IH]; [reflexivity|].
  cbn [existsb filter]. intro H. apply orb_false_elim in H as [Hb Hrest].
  unfold keeps at 1. rewrite Hb. cbn [negb]. f_equal. apply IH, Hrest.
Qed.

(** C4: [removeTimeBarByName(name)] leaves exactly the bars whose name
    differs from [name], in their order (so every bar of that name is
    removed, not only the first); and when no bar has the name the widget is
    left as it was: the bars, the height, what is drawn and the list of
    redraws are those of before. *)
Theorem removeTimeBarByName_all (nm : string) (st : Widget) :
  timebars (removeTimeBarByName nm st) = filter (keeps nm) (timebars st) /\
  (forall b, In b (timebars (removeTimeBarByName nm st)) <->
             In b (timebars st) /\ name b <> nm) /\
  ((forall b, In b (timebars st) -> name b <> nm) ->
   removeTimeBarByName nm st = st).
Proof.
  assert (Hbars : timebars (removeTimeBarByName nm st)
                  = filter (keeps nm) (timebars st)).
  { rewrite removeTimeBarByName_unfold.
    destruct (existsb _ (timebars st)) eqn:E.
    - apply clearAndRestore_timebars.
    - symmetry. apply filter_keeps_none, E. }
  split; [exact Hbars|]. split.
  - intro b. rewrite Hbars, filter_In. unfold keeps.
    rewrite negb_true_iff. rewrite <- not_true_iff_false, String.eqb_eq.
    reflexivity.
  - intro Hno. rewrite removeTimeBarByName_unfold.
    destruct (existsb _ (timebars st)) eqn:E; [|reflexivity].
    apply existsb_exists in E as (b & Hin & Hb).
    apply String.eqb_eq in Hb. exfalso. exact (Hno b Hin Hb).
Qed.

(** ** Resize *)

Lemma redraw_redraws (st : Widget) :
  redraws (view (redraw st)) = redraws (view st) ++ [timebars st].
Proof. reflexivity. Qed.

Lemma app_one_neq {A : Type} (l : list A) (a : A) : l <> l ++ [a].
Proof.
  intro H. apply (f_equal (@length A)) in H.
  rewrite length_app in H. cbn in H. lia.
Qed.

(** C9: on a resize event a visible widget recomputes its widths from the
    container and redraws; a hidden widget is left exactly as it was.  A
    redraw is added to the widget's redraws if and only if it is visible. *)
Theorem resize_only_when_visible (containerWidth : Z) (st : Widget) :
  (visible st = true ->
   resize containerWidth st = redraw (reWidth containerWidth st) /\
   chartWidth (resize containerWidth st) = containerWidth /\
   width (resize containerWidth st)
   = (containerWidth - Margins.right (margin st) - Margins.left (margin st))%Z /\
   x_range (xScale (resize containerWidth st))
   = (0%Z, width (resize containerWidth st))) /\
  (visible st = false -> resize containerWidth st = st) /\
  (redraws (view (resize containerWidth st))
   = redraws (view st) ++ [timebars st]
   <-> visible st = true).
Proof.
  unfold resize. destruct (visible st) eqn:V.
  - split; [intros _; repeat split|]. split; [discriminate|].
    split; [reflexivity|]. intros _.
    exact (redraw_redraws (reWidth containerWidth st)).
  - split; [discriminate|]. split; [reflexivity|].
    split; [|discriminate]. intro H. exfalso. exact (@app_one_neq _ _ _ H).
Qed.

(** ** The initial domain *)

Lemma fold_min_spec (l : list Z) : forall a,
  let m := fold_left (fun a b => if (a >? b)%Z then b else a) l a in
  (m = a \/ In m l) /\ (m <= a)%Z /\ forall x, In x l -> (m <= x)%Z.
Proof.
  induction l as [|b l IH]; intro a; cbn [fold_left].
  - split; [left; reflexivity|]. split; [lia|]. intros x [].
  - destruct (IH (if (a >? b)%Z then b else a)) as (Hin & Hle & Hall).
    destruct (Z.gtb_spec a b) as [Hab|Hab].
    + split; [right; destruct Hin as [->|Hin]; [left; reflexivity|right; exact Hin]|].
      split; [lia|]. intros x [<-|Hx]; [exact Hle|apply Hall, Hx].
    + split; [destruct Hin as [->|Hin]; [left; reflexivity|right; right; exact Hin]|].
      split; [exact Hle|]. intros x [<-|Hx]; [lia|apply Hall, Hx].
Qed.

Lemma fold_max_spec (l : list Z) : forall a,
  let m := fold_left (fun a b => if (b >? a)%Z then b else a) l a in
  (m = a \/ In m l) /\ (a <= m)%Z /\ forall x, In x l -> (x <= m)%Z.
Proof.
  induction l as [|b l IH]; intro a; cbn [fold_left].
  - split; [left; reflexivity|]. split; [lia|]. intros x [].
  - destruct (IH (if (b >? a)%Z then b else a)) as (Hin & Hle & Hall).
    destruct (Z.gtb_spec b a) as [Hab|Hab].
    + split; [right; destruct Hin as [->|Hin]; [left; reflexivity|right; exact Hin]|].
      split; [lia|]. intros x [<-|Hx]; [exact Hle|apply Hall, Hx].
    + split; [destruct Hin as [->|Hin]; [left; reflexivity|right; right; exact Hin]|].
      split; [exact Hle|]. intros x [<-|Hx]; [lia|apply Hall, Hx].
Qed.

Lemma d3_min_spec (l : list Z) :
  l <> [] ->
  exists m, d3_min l = Some m /\ In m l /\ forall x, In x l -> (m <= x)%Z.
Proof.
  destruct l as [|a l]; [congruence|intros _].
  destruct (fold_min_spec l a) as (Hin & Hle & Hall).
  eexists. split; [reflexivity|]. split.
  - destruct Hin as [->|Hin]; [left; reflexivity|right; exact Hin].
  - intros x [<-|Hx]; [exact Hle|apply Hall, Hx].
Qed.

Lemma d3_max_spec (l : list Z) :
  l <> [] ->
  exists m, d3_max l = Some m /\ In m l /\ forall x, In x l -> (x <= m)%Z.
Proof.
  destruct l as [|a l]; [congruence|intros _].
  destruct (fold_max_spec l a) as (Hin & Hle & Hall).
  eexists. split; [reflexivity|]. split.
  - destruct Hin as [->|Hin]; [left; reflexivity|right; exact Hin].
  - intros x [<-|Hx]; [exact Hle|apply Hall, Hx].
Qed.

Lemma TimeLine_domain (cw clock : Z) (o : Options.t) :
  exists st,
    TimeLine (Some cw) o clock = Some st /\
    timebars st = init_timebars o /\
    selectedDate st = init_selectedDate o clock /\
    x_domain (xScale st) = init_domain (timebars st) (selectedDate st).
Proof. eexists. split; [reflexivity|]. repeat split. Qed.

(** C6: a widget constructed without time bars has the x domain from
    [selectedDate - 15778450000] to [selectedDate + 15778450000]
    milliseconds; constructed with time bars it has the domain from the
    least [startDate] to the greatest [endDate] of the bars. *)
Theorem initial_domain (cw clock : Z) (o : Options.t) :
  exists st,
    TimeLine (Some cw) o clock = Some st /\
    timebars st = init_timebars o /\
    (timebars st = [] ->
     forall s, selectedDate st = Some s ->
       x_domain (xScale st)
       = (Some (s - 15778450000)%Z, Some (s + 15778450000)%Z)) /\
    (timebars st <> [] ->
     exists lo hi,
       x_domain (xScale st) = (Some lo, Some hi) /\
       In lo (map startDate (timebars st)) /\
       (forall b, In b (timebars st) -> (lo <= startDate b)%Z) /\
       In hi (map endDate (timebars st)) /\
       (forall b, In b (timebars st) -> (endDate b <= hi)%Z)).
Proof.
  destruct (TimeLine_domain cw clock o) as (st & Hst & Hbars & Hsel & Hdom).
  exists st. split; [exact Hst|]. split; [exact Hbars|]. split.
  - intros Hnil s Hs. rewrite Hdom, Hnil, Hs. reflexivity.
  - intro Hne. rewrite Hdom. unfold init_domain.
    destruct (@d3_min_spec (map startDate (timebars st)))
      as (lo & Elo & Hlo & Hmin).
    { intro E. apply map_eq_nil in E. contradiction. }
    destruct (@d3_max_spec (map endDate (timebars st)))
      as (hi & Ehi & Hhi & Hmax).
    { intro E. apply map_eq_nil in E. contradiction. }
    exists lo, hi. rewrite Elo, Ehi. split; [reflexivity|].
    split; [exact Hlo|]. split; [|split; [exact Hhi|]].
    + intros b Hb. apply Hmin, in_map, Hb.
    + intros b Hb. apply Hmax, in_map, Hb.
Qed.

(** ** Option defaults *)

(** The options object [{}]: every recognised option is absent. *)
Definition noOptions : Options.t := Options.mk Absent Absent Absent Absent Absent.

(** C7, at the options object [{}]: [chartMargins] and [timebars] get their
    defaults, but [barHeight] and [barMargin] stay [undefined] (not 20 and
    4) and [selectedDate] is an invalid date (not the current time), so the
    lane height and the heights are [NaN]. *)
Theorem absent_options_not_defaulted (cw clock : Z) :
  exists st,
    TimeLine (Some cw) noOptions clock = Some st /\
    margin st = Margins.zero /\
    timebars st = [] /\
    barHeight st = JUndefined /\
    barMargin st = JUndefined /\
    selectedDate st = None /\
    laneHeight st = NaN /\
    height st = NaN /\
    chartHeight st = NaN.
Proof. eexists. split; [reflexivity|]. repeat split. Qed.

(** With [null] for an option the default is applied. *)
Lemma null_options_defaulted (cw clock : Z) :
  exists st,
    TimeLine (Some cw) (Options.mk Null Null Null Null Null) clock = Some st /\
    margin st = Margins.zero /\
    timebars st = [] /\
    barHeight st = JNum 20 /\
    barMargin st = JNum 4 /\
    selectedDate st = Some clock /\
    laneHeight st = Fin 29.
Proof. eexists. split; [reflexivity|]. repeat split. Qed.

(** ** Dragging the selected date *)

Lemma toInteger_between (q : Q) (lo hi : Z) :
  inject_Z lo <= q -> q <= inject_Z hi -> (lo <= toInteger q <= hi)%Z.
Proof.
  intros Hlo Hhi. unfold toInteger. destruct (Qle_bool 0 q).
  - split.
    + rewrite <- (Qfloor_Z lo). apply Qfloor_resp_le, Hlo.
    + rewrite Zle_Qle. eapply Qle_trans; [apply Qfloor_le|exact Hhi].
  - split.
    + rewrite Zle_Qle. eapply Qle_trans; [exact Hlo|apply Qle_ceiling].
    + rewrite <- (Qceiling_Z hi). apply Qceiling_resp_le, Hhi.
Qed.

Lemma toInteger_exact (q : Q) (t : Z) : q == inject_Z t -> toInteger q = t.
Proof.
  intro E.
  assert (t <= toInteger q <= t)%Z; [|lia].
  apply toInteger_between; rewrite E; apply Qle_refl.
Qed.

(** The pixel the drag handler tries: [xScale(draggedDate) + dx]. *)
Definition candidateX (dx : Q) (st : Widget) : option Q :=
  option_map (fun x => x + dx) (scaleX (xScale st) (draggedDate st)).

Section Drag.
Variables d0 d1 w : Z.
Hypothesis Hdom : (d0 < d1)%Z.
Hypothesis Hw : (0 < w)%Z.

Let xs := mkXScale (Some d0, Some d1) (0%Z, w).

Lemma span_pos : 0 < inject_Z (d1 - d0).
Proof. change 0 with (inject_Z 0). rewrite <- Zlt_Qlt. lia. Qed.

Lemma width_pos : 0 < inject_Z (w - 0).
Proof. change 0 with (inject_Z 0). rewrite <- Zlt_Qlt. lia. Qed.

(** A pixel strictly inside the range inverts to a date of the domain. *)
Lemma invertX_inside (x : Q) :
  0 < x -> x < inject_Z w ->
  exists t', invertX xs (Some x) = Some t' /\ (d0 <= t' <= d1)%Z.
Proof.
  intros H0 H1. eexists. split; [reflexivity|].
  assert (HD := span_pos). assert (HW := width_pos).
  set (u := (x - inject_Z 0) / inject_Z (w - 0)).
  assert (Hu0 : 0 <= u).
  { apply Qle_shift_div_l; [exact HW|]. change (inject_Z 0) with 0. lra. }
  assert (Hu1 : u <= 1).
  { apply Qle_shift_div_r; [exact HW|].
    replace (w - 0)%Z with w by lia. change (inject_Z 0) with 0. lra. }
  assert (Hd1 : inject_Z d1 == inject_Z d0 + inject_Z (d1 - d0)).
  { unfold Z.sub. rewrite inject_Z_plus, inject_Z_opp. ring. }
  apply toInteger_between.
  - assert (0 <= inject_Z (d1 - d0) * u)
      by (apply Qmult_le_0_compat; [apply Qlt_le_weak, HD|exact Hu0]).
    lra.
  - rewrite Hd1.
    assert (inject_Z (d1 - d0) * u <= inject_Z (d1 - d0) * 1).
    { apply Qmult_le_l; [exact HD|exact Hu1]. }
    lra.
Qed.

(** Taking [dx] back from the candidate pixel inverts to the date dragged
    from. *)
Lemma invertX_reverted (t : Z) (x dx : Q) :
  scaleX xs (Some t) = Some x ->
  invertX xs (Some (x + dx - dx)) = Some t.
Proof.
  intro Hx. cbn in Hx. injection Hx as <-.
  cbn [invertX xs x_domain x_range]. f_equal.
  apply toInteger_exact.
  assert (HD := span_pos). assert (HW := width_pos).
  assert (Ht : inject_Z t == inject_Z d0 + inject_Z (t - d0)).
  { unfold Z.sub. rewrite inject_Z_plus, inject_Z_opp. ring. }
  rewrite Ht. field. split; lra.
Qed.
End Drag.

Lemma dragDate_xScale (dx : Q) (st : Widget) : xScale (dragDate dx st) = xScale st.
Proof. reflexivity. Qed.

Lemma dragDate_draggedDate (dx : Q) (st : Widget) (d0 d1 w t : Z) :
  xScale st = mkXScale (Some d0, Some d1) (0%Z, w) ->
  (d0 < d1)%Z -> (0 < w)%Z ->
  draggedDate st = Some t ->
  exists x,
    candidateX dx st = Some x /\
    draggedDate (dragDate dx st)
    = invertX (xScale st)
        (Some (if Qltb 0 x && Qltb x (inject_Z w) then x else x - dx)) /\
    invertX (xScale st) (Some (x - dx)) = Some t.
Proof.
  intros Hxs Hdom Hw Hdd. unfold candidateX, dragDate.
  cbn [draggedDate set_view set_draggedDate]. rewrite Hxs, Hdd.
  eexists. split; [reflexivity|]. split; [reflexivity|].
  cbn [option_map]. apply invertX_reverted; [exact Hdom|exact Hw|reflexivity].
Qed.

Lemma dragDate_in_domain (dx : Q) (st : Widget) (d0 d1 w t : Z) :
  xScale st = mkXScale (Some d0, Some d1) (0%Z, w) ->
  (d0 < d1)%Z -> (0 < w)%Z ->
  draggedDate st = Some t -> (d0 <= t <= d1)%Z ->
  exists t', draggedDate (dragDate dx st) = Some t' /\ (d0 <= t' <= d1)%Z.
Proof.
  intros Hxs Hdom Hw Hdd Ht.
  destruct (dragDate_draggedDate dx st Hxs Hdom Hw Hdd)
    as (x & _ & Hnext & Hback).
  rewrite Hnext.
  destruct (Qltb 0 x) eqn:E0; [destruct (Qltb x (inject_Z w)) eqn:E1|];
    cbn [andb].
  - rewrite Hxs. apply invertX_inside; try assumption.
    + apply Qltb_lt, E0.
    + apply Qltb_lt, E1.
  - exists t. split; assumption.
  - exists t. split; assumption.
Qed.

(** With the scale computed exactly, a drag step whose candidate pixel is
    not strictly inside the range leaves [draggedDate] as it was, and any
    sequence of steps leaves it a date of the domain.  On doubles neither
    holds, as the evaluation of [Doubles.dragDateF] further down shows. *)
Lemma dragDate_exact_in_domain (st : Widget) (d0 d1 w t : Z) :
  xScale st = mkXScale (Some d0, Some d1) (0%Z, w) ->
  (d0 < d1)%Z -> (0 < w)%Z ->
  draggedDate st = Some t -> (d0 <= t <= d1)%Z ->
  (forall dx x,
      candidateX dx st = Some x ->
      x <= 0 \/ inject_Z w <= x ->
      draggedDate (dragDate dx st) = Some t) /\
  (forall dxs,
      exists t', draggedDate (dragBy dxs st) = Some t' /\ (d0 <= t' <= d1)%Z).
Proof.
  intros Hxs Hdom Hw Hdd Ht. split.
  - intros dx x Hx Hout.
    destruct (dragDate_draggedDate dx st Hxs Hdom Hw Hdd)
      as (x' & Hx' & Hnext & Hback).
    rewrite Hx in Hx'. injection Hx' as <-. rewrite Hnext.
    replace (Qltb 0 x && Qltb x (inject_Z w)) with false; [exact Hback|].
    symmetry. apply andb_false_iff.
    destruct Hout as [H|H]; [left|right]; apply Qltb_ge, H.
  - intro dxs. revert st t Hxs Hdd Ht.
    induction dxs as [|dx dxs IH]; intros st t Hxs Hdd Ht.
    + exists t. split; assumption.
    + cbn [dragBy fold_left].
      destruct (dragDate_in_domain dx st Hxs Hdom Hw Hdd Ht) as (t1 & Hd1 & Ht1).
      apply (IH (dragDate dx st) t1); [|exact Hd1|exact Ht1].
      rewrite dragDate_xScale. exact Hxs.
Qed.

(** One bar over the year 2020 on 1000 pixels, the selected date inside. *)
Definition year2020 : option Widget :=
  TimeLine (Some 1000%Z)
    (Options.mk (Given 1600000000000%Z) Null Null Null
       (Given [mkTimeBar "a" "A" 1577836800000 1609372800000 []])) 0.

(** ** The data join of redraw *)

Lemma dataJoin_length (data : list TimeBar) : forall i old,
  length (dataJoin i old data) = length data.
Proof.
  induction data as [|d data IH]; intros i old; [reflexivity|].
  destruct old; cbn [dataJoin length]; rewrite IH; reflexivity.
Qed.

Lemma dataJoin_datum (data : list TimeBar) : forall i old,
  map lane_datum (dataJoin i old data) = data.
Proof.
  induction data as [|d data IH]; intros i old; [reflexivity|].
  destruct old; cbn [dataJoin map lane_datum enterLane]; rewrite IH; reflexivity.
Qed.

(** A lane that was there and still has a datum keeps what it was entered
    with. *)
Lemma dataJoin_survivor (data : list TimeBar) : forall i old k l d,
  nth_error old k = Some l -> nth_error data k = Some d ->
  nth_error (dataJoin i old data) k
  = Some (mkLane (lane_index l) (lane_label l) (lane_details l) d).
Proof.
  induction data as [|d0 data IH]; intros i old k l d Hl Hd.
  - destruct k; discriminate.
  - destruct old as [|l0 old]; [destruct k; discriminate|].
    destruct k as [|k]; cbn [dataJoin nth_error] in *.
    + injection Hl as ->. injection Hd as ->. reflexivity.
    + eapply IH; eassumption.
Qed.

(** A datum past the lanes that were there enters at its position. *)
Lemma dataJoin_entered (data : list TimeBar) : forall i old k d,
  (length old <= k)%nat -> nth_error data k = Some d ->
  nth_error (dataJoin i old data) k = Some (enterLane (i + k) d).
Proof.
  induction data as [|d0 data IH]; intros i old k d Hk Hd.
  - destruct k; discriminate.
  - destruct old as [|l0 old]; destruct k as [|k];
      cbn [dataJoin nth_error length] in *; try lia.
    + injection Hd as ->. rewrite Nat.add_0_r. reflexivity.
    + rewrite (IH (S i) [] k d) by (cbn; (lia || assumption)).
      f_equal. f_equal. lia.
    + rewrite (IH (S i) old k d) by (lia || assumption).
      f_equal. f_equal. lia.
Qed.

Lemma dataJoin_again (data : list TimeBar) : forall i old,
  dataJoin i (dataJoin i old data) data = dataJoin i old data.
Proof.
  induction data as [|d data IH]; intros i old; [reflexivity|].
  destruct old; cbn [dataJoin lane_index lane_label lane_details enterLane];
    rewrite IH; reflexivity.
Qed.

Lemma dataJoin_fresh_app (data more : list TimeBar) : forall i,
  dataJoin i (dataJoin i [] data) (data ++ more) = dataJoin i [] (data ++ more).
Proof.
  induction data as [|d data IH]; intro i; [reflexivity|].
  cbn [dataJoin app lane_index lane_label lane_details enterLane].
  rewrite IH. reflexivity.
Qed.

Lemma dataJoin_fresh_same (data : list TimeBar) (i : nat) :
  dataJoin i (dataJoin i [] data) data = dataJoin i [] data.
Proof. apply dataJoin_again. Qed.

(** A second [redraw] right after a [redraw] leaves the scales, the lanes
    and the markers: the state is that of the first [redraw] with one more
    entry in the record of redraws. *)
Lemma redraw_redraw (st : Widget) :
  redraw (redraw st)
  = set_view
      (mkView (lanes (view (redraw st))) (nowLine (view (redraw st)))
              (selectedDateLine (view (redraw st)))
              (redraws (view (redraw st)) ++ [timebars st]))
      (redraw st).
Proof.
  unfold redraw at 1. cbn [set_view set_yScale set_xScale].
  change (timebars (redraw st)) with (timebars st).
  change (lanes (view (redraw st)))
    with (dataJoin 0 (lanes (view st)) (timebars st)).
  rewrite dataJoin_again. reflexivity.
Qed.

(** X2: after a [redraw], whatever was drawn before, there is one lane per
    bar and lane [k] is bound to bar [k]; a lane that was already there keeps
    the label, position and detail lines it entered with, and a bar past the
    old lanes enters with its own. *)
Theorem redraw_joins_by_position (st : Widget) :
  let old := lanes (view st) in
  let new := lanes (view (redraw st)) in
  length new = length (timebars st) /\
  map lane_datum new = timebars st /\
  (forall k l d,
      nth_error old k = Some l -> nth_error (timebars st) k = Some d ->
      nth_error new k
      = Some (mkLane (lane_index l) (lane_label l) (lane_details l) d)) /\
  (forall k d,
      (length old <= k)%nat -> nth_error (timebars st) k = Some d ->
      nth_error new k = Some (mkLane k (label d) (dateTimes d) d)).
Proof.
  cbn zeta.
  change (lanes (view (redraw st)))
    with (dataJoin 0 (lanes (view st)) (timebars st)).
  split; [apply dataJoin_length|]. split; [apply dataJoin_datum|]. split.
  - intros k l d. apply dataJoin_survivor.
  - intros k d Hk Hd. apply (dataJoin_entered _ 0 _ Hk Hd).
Qed.

(** ** What every call keeps in step *)

(** The display and the derived geometry agree with the bars: the lanes are
    those the bars enter with, the lane scale and the heights are those of
    the current bars, and the x range and width those of the last container
    width read. *)
Definition in_step (st : Widget) : Prop :=
  lanes (view st) = dataJoin 0 [] (timebars st) /\
  yScale st = mkYScale (length (timebars st)) (height st) /\
  height st = height (reHeight st) /\
  chartHeight st = chartHeight (reHeight st) /\
  x_range (xScale st) = (0%Z, width st) /\
  width st
  = (chartWidth st - Margins.right (margin st) - Margins.left (margin st))%Z.

Lemma in_step_TimeLine (cw clock : Z) (o : Options.t) :
  exists st, TimeLine (Some cw) o clock = Some st /\ in_step st.
Proof. eexists. split; [reflexivity|]. repeat split. Qed.

Lemma reHeight_depends (st st' : Widget) :
  laneHeight st' = laneHeight st -> timebars st' = timebars st ->
  margin st' = margin st ->
  height (reHeight st') = height (reHeight st) /\
  chartHeight (reHeight st') = chartHeight (reHeight st).
Proof.
  intros Hl Hb Hm. unfold reHeight. cbn [height chartHeight set_heights].
  rewrite Hl, Hb, Hm. split; reflexivity.
Qed.

(** The state after [reHeight] and [redraw] on bars just assigned. *)
Lemma in_step_rebuilt (bars : list TimeBar) (st : Widget) :
  x_range (xScale st) = (0%Z, width st) ->
  width st
  = (chartWidth st - Margins.right (margin st) - Margins.left (margin st))%Z ->
  lanes (view (redraw (reHeight (set_timebars bars st)))) = dataJoin 0 [] bars ->
  in_step (redraw (reHeight (set_timebars bars st))).
Proof.
  intros Hx Hw Hl.
  set (st1 := reHeight (set_timebars bars st)).
  destruct (@reHeight_depends st1 (redraw st1) eq_refl eq_refl eq_refl)
    as [Hh Hc].
  destruct (@reHeight_depends (set_timebars bars st) st1 eq_refl eq_refl eq_refl)
    as [Hh1 Hc1].
  unfold in_step. split; [exact Hl|]. split; [reflexivity|].
  split.
  { rewrite Hh. change (height (redraw st1)) with (height st1).
    symmetry. exact Hh1. }
  split.
  { rewrite Hc. change (chartHeight (redraw st1)) with (chartHeight st1).
    symmetry. exact Hc1. }
  split; [reflexivity|exact Hw].
Qed.

Lemma in_step_redraw (st : Widget) : in_step st -> in_step (redraw st).
Proof.
  intros (Hl & Hy & Hh & Hc & Hx & Hw).
  destruct (@reHeight_depends st (redraw st) eq_refl eq_refl eq_refl)
    as [Hh' Hc'].
  unfold in_step.
  change (lanes (view (redraw st)))
    with (dataJoin 0 (lanes (view st)) (timebars st)).
  rewrite Hl, dataJoin_fresh_same, Hh', Hc'.
  split; [reflexivity|]. split; [reflexivity|].
  split; [exact Hh|]. split; [exact Hc|]. split; [reflexivity|exact Hw].
Qed.

Lemma in_step_add (b : TimeBar) (st : Widget) :
  in_step st ->
  in_step (redraw (reHeight (set_timebars (timebars st ++ [b]) st))).
Proof.
  intros (Hl & Hy & Hh & Hc & Hx & Hw).
  apply in_step_rebuilt; [exact Hx|exact Hw|].
  change (lanes (view (redraw (reHeight (set_timebars (timebars st ++ [b]) st)))))
    with (dataJoin 0 (lanes (view st)) (timebars st ++ [b])).
  rewrite Hl. apply dataJoin_fresh_app.
Qed.

Lemma in_step_clearAndRestore (temp : list TimeBar) (st : Widget) :
  in_step st -> in_step (clearAndRestore temp st).
Proof.
  intros (Hl & Hy & Hh & Hc & Hx & Hw). unfold clearAndRestore.
  apply in_step_rebuilt; [reflexivity|exact Hw|reflexivity].
Qed.

Lemma in_step_reWidth (cw : Z) (st : Widget) :
  in_step st -> in_step (redraw (reWidth cw st)).
Proof.
  intros (Hl & Hy & Hh & Hc & Hx & Hw).
  destruct (@reHeight_depends st (redraw (reWidth cw st)) eq_refl eq_refl eq_refl)
    as [Hh' Hc'].
  unfold in_step.
  change (lanes (view (redraw (reWidth cw st))))
    with (dataJoin 0 (lanes (view st)) (timebars st)).
  rewrite Hl, dataJoin_fresh_same, Hh', Hc'.
  split; [reflexivity|]. split; [reflexivity|].
  split; [exact Hh|]. split; [exact Hc|]. split; reflexivity.
Qed.

Lemma in_step_zoomDate (s e : date) (st : Widget) :
  in_step st -> in_step (zoomDate s e st).
Proof.
  intros (Hl & Hy & Hh & Hc & Hx & Hw). unfold zoomDate.
  apply in_step_redraw. unfold in_step.
  split; [exact Hl|]. split; [exact Hy|]. split; [exact Hh|].
  split; [exact Hc|]. split; [exact Hx|exact Hw].
Qed.

Lemma in_step_act (a : Action) (st : Widget) : in_step st -> in_step (act a st).
Proof.
  intro H. destruct a; cbn [act].
  - apply in_step_add, H.
  - apply in_step_add, H.
  - apply in_step_clearAndRestore, H.
  - rewrite removeTimeBarByName_unfold.
    destruct (existsb _ (timebars st)); [apply in_step_clearAndRestore|]; exact H.
  - unfold resize. destruct (visible st); [apply in_step_reWidth|]; exact H.
  - apply in_step_zoomDate, H.
  - exact H.
  - exact H.
  - exact H.
  - exact H.
  - exact H.
Qed.

Lemma in_step_run (acts : list Action) : forall st,
  in_step st -> in_step (run acts st).
Proof.
  induction acts as [|a acts IH]; intros st H; [exact H|].
  cbn [run fold_left]. apply IH, in_step_act, H.
Qed.

Lemma dataJoin_fresh_nth (data : list TimeBar) (k : nat) :
  nth_error (dataJoin 0 [] data) k
  = option_map (fun d => mkLane k (label d) (dateTimes d) d) (nth_error data k).
Proof.
  destruct (nth_error data k) as [d|] eqn:E.
  - apply (@dataJoin_entered data 0 [] k d); [cbn; lia|exact E].
  - apply nth_error_None. rewrite dataJoin_length.
    apply nth_error_None, E.
Qed.

(** X3: after the constructor and any sequence of calls and events (adding
    and removing bars, resizing, zooming, setting or dragging the date,
    hiding and showing), lane [k] of the display is exactly the lane of bar
    [k] (its label, its detail lines, position [k]), the lane scale and the
    heights are those [reHeight] gives the current bars, and the x range is
    [[0, width]]. *)
Theorem calls_keep_display_in_step (cw clock : Z) (o : Options.t)
  (acts : list Action) :
  exists st0,
    TimeLine (Some cw) o clock = Some st0 /\
    let st := run acts st0 in
    (forall k,
        nth_error (lanes (view st)) k
        = option_map (fun d => mkLane k (label d) (dateTimes d) d)
                     (nth_error (timebars st) k)) /\
    yScale st = mkYScale (length (timebars st)) (height st) /\
    height st = height (reHeight st) /\
    chartHeight st = chartHeight (reHeight st) /\
    x_range (xScale st) = (0%Z, width st).
Proof.
  destruct (in_step_TimeLine cw clock o) as (st0 & Hst0 & H0).
  exists st0. split; [exact Hst0|]. cbn zeta.
  destruct (@in_step_run acts st0 H0) as (Hl & Hy & Hh & Hc & Hx & Hw).
  split; [|repeat split; assumption].
  intro k. rewrite Hl. apply dataJoin_fresh_nth.
Qed.

(** ** Adding and removing compose *)

Lemma removeAt_last {A : Type} (l : list A) (a : A) :
  removeAt (length l) (l ++ [a]) = l.
Proof.
  unfold removeAt.
  rewrite firstn_app, Nat.sub_diag, firstn_all. cbn [firstn].
  rewrite skipn_all2 by (rewrite length_app; cbn; lia).
  rewrite !app_nil_r. reflexivity.
Qed.

Lemma splice_last {A : Type} (l : list A) (a : A) (index : Z) :
  index = Z.of_nat (length l) \/ index = (-1)%Z ->
  splice index 1 (l ++ [a]) = l.
Proof.
  intros [->| ->].
  - rewrite splice_inside by (rewrite length_app; cbn; lia).
    rewrite Nat2Z.id. apply removeAt_last.
  - rewrite splice_from_end by (rewrite length_app; cbn; lia).
    replace (Z.to_nat (Z.of_nat (length (l ++ [a])) + -1)) with (length l)
      by (rewrite length_app; cbn; lia).
    apply removeAt_last.
Qed.

Lemma clearAndRestore_heights (temp : list TimeBar) (st : Widget) :
  height (clearAndRestore temp st) = height (reHeight (set_timebars temp st)) /\
  chartHeight (clearAndRestore temp st)
  = chartHeight (reHeight (set_timebars temp st)).
Proof.
  unfold clearAndRestore.
  set (st1 := redraw (reHeight (set_timebars [] st))).
  assert (Hl : laneHeight (set_timebars temp st1) = laneHeight (set_timebars temp st))
    by reflexivity.
  assert (Hm : margin (set_timebars temp st1) = margin (set_timebars temp st))
    by reflexivity.
  destruct (@reHeight_depends (set_timebars temp st) (set_timebars temp st1)
              Hl eq_refl Hm) as [Hh Hc].
  split; [exact Hh|exact Hc].
Qed.

Lemma clearAndRestore_xScale (temp : list TimeBar) (st : Widget) :
  xScale (clearAndRestore temp st)
  = mkXScale (x_domain (xScale st)) (0%Z, width st).
Proof. reflexivity. Qed.

Lemma redraw_yScale (st : Widget) :
  yScale (redraw st) = mkYScale (length (timebars st)) (height (redraw st)).
Proof. reflexivity. Qed.

Lemma clearAndRestore_yScale (temp : list TimeBar) (st : Widget) :
  yScale (clearAndRestore temp st)
  = mkYScale (length temp) (height (clearAndRestore temp st)).
Proof. unfold clearAndRestore. rewrite redraw_yScale. reflexivity. Qed.

Lemma clearAndRestore_lanes (temp : list TimeBar) (st : Widget) :
  lanes (view (clearAndRestore temp st)) = dataJoin 0 [] temp.
Proof. reflexivity. Qed.

(** X4: in a state that is in step, adding a bar and then removing the last
    bar (by its index [n] or by [-1]) gives back the bars, the heights, the
    lanes and both scales of before; only the record of redraws grows, by the
    redraw of the addition and the two of the removal. *)
Theorem add_then_remove_last (b : TimeBar) (index : Z) (st : Widget) :
  in_step st ->
  index = Z.of_nat (length (timebars st)) \/ index = (-1)%Z ->
  let st' := removeTimeBar index (addTimeBarJSON b st) in
  timebars st' = timebars st /\
  height st' = height st /\
  chartHeight st' = chartHeight st /\
  lanes (view st') = lanes (view st) /\
  yScale st' = yScale st /\
  xScale st' = xScale st /\
  redraws (view st')
  = redraws (view st) ++ [timebars st ++ [b]; []; timebars st].
Proof.
  intros (Hl & Hy & Hh & Hc & Hx & Hw) Hi. cbn zeta.
  unfold removeTimeBar.
  assert (Eb : timebars (addTimeBarJSON b st) = timebars st ++ [b])
    by reflexivity.
  rewrite Eb, (splice_last _ _ Hi).
  set (st1 := addTimeBarJSON b st).
  destruct (clearAndRestore_heights (timebars st) st1) as [Hh1 Hc1].
  assert (El : laneHeight (set_timebars (timebars st) st1) = laneHeight st)
    by reflexivity.
  assert (Em : margin (set_timebars (timebars st) st1) = margin st)
    by reflexivity.
  destruct (@reHeight_depends st (set_timebars (timebars st) st1)
              El eq_refl Em) as [Hh2 Hc2].
  assert (E : height (clearAndRestore (timebars st) st1) = height st)
    by (rewrite Hh1, Hh2; symmetry; exact Hh).
  split; [apply clearAndRestore_timebars|]. split; [exact E|]. split.
  { rewrite Hc1, Hc2. symmetry. exact Hc. }
  split; [rewrite Hl; apply clearAndRestore_lanes|]. split.
  { rewrite clearAndRestore_yScale, E, Hy. reflexivity. }
  split.
  { rewrite clearAndRestore_xScale.
    assert (Ex : x_domain (xScale st1) = x_domain (xScale st)) by reflexivity.
    assert (Ew : width st1 = width st) by reflexivity.
    rewrite Ex, Ew, <- Hx. destruct (xScale st). reflexivity. }
  rewrite clearAndRestore_redraws.
  assert (Er : redraws (view st1) = redraws (view st) ++ [timebars st ++ [b]])
    by reflexivity.
  rewrite Er, <- app_assoc. reflexivity.
Qed.

Lemma add_then_remove_last_witness :
  exists st,
    defaultWidget = Some st /\
    timebars (removeTimeBar (-1) (addTimeBarJSON (mkTimeBar "a" "A" 0 1 []) st))
    = timebars st /\
    height (removeTimeBar (-1) (addTimeBarJSON (mkTimeBar "a" "A" 0 1 []) st))
    = Fin 25.
Proof.
  destruct (in_step_TimeLine 1000 0 (Options.mk Null Null Null Null Null))
    as (st & Hst & Hin).
  exists st. split; [exact Hst|].
  destruct (@add_then_remove_last (mkTimeBar "a" "A" 0 1 []) (-1) st Hin
              (or_intror eq_refl)) as (Hb & Hh & _).
  split; [exact Hb|]. rewrite Hh.
  unfold defaultWidget in Hst. injection Hst as <-. reflexivity.
Defined.

(** X5: an index below [-n] makes [splice] start at 0: [removeTimeBar]
    removes the first bar (and nothing from an empty widget). *)
Theorem removeTimeBar_far_negative (index : Z) (st : Widget) :
  (index < - Z.of_nat (length (timebars st)))%Z ->
  timebars (removeTimeBar index st) = tl (timebars st).
Proof.
  intro H. unfold removeTimeBar. rewrite clearAndRestore_timebars.
  unfold splice.
  replace (index <? 0)%Z with true by (symmetry; apply Z.ltb_lt; lia).
  rewrite Z.max_r by lia. rewrite Z.sub_0_r. cbn [Z.to_nat firstn app Nat.add].
  destruct (timebars st) as [|b bars]; [reflexivity|].
  rewrite Z.max_l, Z.min_l by (cbn [length]; lia). reflexivity.
Qed.

Lemma removeTimeBar_far_negative_witness :
  exists st,
    year2020 = Some st /\
    (-5 < - Z.of_nat (length (timebars st)))%Z /\
    timebars (removeTimeBar (-5) st) = [].
Proof.
  eexists. split; [reflexivity|]. split; [cbn; lia|].
  match goal with
  | |- timebars (removeTimeBar _ ?s) = _ =>
      rewrite (@removeTimeBar_far_negative (-5) s) by (cbn; lia)
  end.
  reflexivity.
Defined.

Lemma filter_keeps_clean (nm : string) (bars : list TimeBar) :
  existsb (fun b => String.eqb (name b) nm) (filter (keeps nm) bars) = false.
Proof.
  induction bars as [|b bars IH]; [reflexivity|].
  cbn [filter]. unfold keeps at 1.
  destruct (String.eqb (name b) nm) eqn:E; cbn [negb]; [exact IH|].
  cbn [existsb]. rewrite E, IH. reflexivity.
Qed.

(** X6: [removeTimeBarByName] twice with the same name is once: the second
    call finds no bar of that name and leaves the widget, its display and
    its record of redraws as the first call left them. *)
Theorem removeTimeBarByName_twice (nm : string) (st : Widget) :
  removeTimeBarByName nm (removeTimeBarByName nm st)
  = removeTimeBarByName nm st.
Proof.
  rewrite (removeTimeBarByName_unfold nm (removeTimeBarByName nm st)).
  replace (existsb (fun b => String.eqb (name b) nm)
             (timebars (removeTimeBarByName nm st))) with false; [reflexivity|].
  symmetry. rewrite removeTimeBarByName_unfold.
  destruct (existsb _ (timebars st)) eqn:E; [|exact E].
  rewrite clearAndRestore_timebars. apply filter_keeps_clean.
Qed.

(** X7: removing by a name no bar has is the only way a removal leaves the
    display alone; removing by a name some bar has redraws twice, first with
    no bars and then with the bars that stay. *)
Theorem removeTimeBarByName_redraws (nm : string) (st : Widget) :
  (exists b, In b (timebars st) /\ name b = nm) ->
  redraws (view (removeTimeBarByName nm st))
  = redraws (view st) ++ [[]; filter (keeps nm) (timebars st)] /\
  lanes (view (removeTimeBarByName nm st))
  = dataJoin 0 [] (filter (keeps nm) (timebars st)).
Proof.
  intros (b & Hin & Hb). rewrite removeTimeBarByName_unfold.
  replace (existsb (fun b => String.eqb (name b) nm) (timebars st)) with true.
  - split; [apply clearAndRestore_redraws|apply clearAndRestore_lanes].
  - symmetry. apply existsb_exists. exists b. split; [exact Hin|].
    apply String.eqb_eq, Hb.
Qed.

Lemma removeTimeBarByName_redraws_witness :
  exists st,
    year2020 = Some st /\
    (exists b, In b (timebars st) /\ name b = "a"%string) /\
    redraws (view (removeTimeBarByName "a" st))
    = redraws (view st) ++ [[]; []] /\
    lanes (view (removeTimeBarByName "a" st)) = [].
Proof.
  eexists. split; [reflexivity|].
  split; [eexists; split; [left; reflexivity|reflexivity]|].
  match goal with
  | |- redraws (view (removeTimeBarByName _ ?s)) = _ /\ _ =>
      destruct (@removeTimeBarByName_redraws "a" s) as [Hr Hl];
        [eexists; split; [left; reflexivity|reflexivity]|]
  end.
  rewrite Hr, Hl. split; reflexivity.
Defined.

(** ** Heights *)

(** X8: with a positive numeric lane height the computed height is a
    positive number for every number of bars (25 for none, at least one lane
    otherwise), and with non-negative top and bottom margins the chart is at
    least 20 pixels higher. *)
Theorem reHeight_positive (st : Widget) (lh : Z) :
  laneHeight st = Fin lh -> (0 < lh)%Z ->
  exists h,
    height (reHeight st) = Fin h /\
    (0 < h)%Z /\
    (timebars st = [] -> h = 25%Z) /\
    (timebars st <> [] -> (lh <= h)%Z) /\
    ((0 <= Margins.top (margin st))%Z -> (0 <= Margins.bottom (margin st))%Z ->
     exists ch, chartHeight (reHeight st) = Fin ch /\ (h + 20 <= ch)%Z).
Proof.
  intros Hl Hpos. eexists. split; [apply (reHeight_height st Hl Hpos)|].
  destruct (timebars st) as [|b bars] eqn:E; cbn [length barsHeight].
  - split; [lia|]. split; [reflexivity|]. split; [congruence|].
    intros Ht Hb. eexists. split.
    + apply reHeight_chartHeight. rewrite (reHeight_height st Hl Hpos), E.
      reflexivity.
    + cbn [length barsHeight]. lia.
  - assert (lh <= lh * Z.of_nat (S (length bars)))%Z by nia.
    split; [lia|]. split; [discriminate|]. split; [intros _; assumption|].
    intros Ht Hb. eexists. split.
    + apply reHeight_chartHeight. rewrite (reHeight_height st Hl Hpos), E.
      reflexivity.
    + cbn [length barsHeight]. lia.
Qed.

Lemma reHeight_positive_witness :
  exists st,
    defaultWidget = Some st /\
    laneHeight st = Fin 29 /\ (0 < 29)%Z /\
    exists h, height (reHeight st) = Fin h /\ (0 < h)%Z.
Proof.
  eexists. split; [reflexivity|]. split; [reflexivity|]. split; [lia|].
  match goal with
  | |- exists h, height (reHeight ?s) = _ /\ _ =>
      destruct (@reHeight_positive s 29 eq_refl eq_refl) as (h & Hh & Hp & _)
  end.
  exists h. split; assumption.
Defined.

(** X9: when [barHeight] or [barMargin] is [undefined] the lane height is
    [NaN], and then the height and the chart height are [NaN] for every
    number of bars: the 25-pixel default is not applied, since [NaN === 0]
    is false. *)
Theorem reHeight_nan (st : Widget) :
  laneHeight st = NaN ->
  height (reHeight st) = NaN /\ chartHeight (reHeight st) = NaN.
Proof.
  intro Hl. unfold reHeight. cbn [height chartHeight set_heights].
  rewrite Hl. split; reflexivity.
Qed.

Lemma reHeight_nan_witness :
  exists st,
    TimeLine (Some 1000%Z) noOptions 0 = Some st /\
    laneHeight st = NaN /\
    height (reHeight st) = NaN /\ chartHeight (reHeight st) = NaN.
Proof.
  eexists. split; [reflexivity|]. split; [reflexivity|].
  match goal with
  | |- height (reHeight ?s) = _ /\ _ => apply (@reHeight_nan s eq_refl)
  end.
Defined.

(** ** Tick steps *)

Lemma d3_round_lower (q : Q) (lo : Z) :
  inject_Z lo <= q + (1 # 2) -> (lo <= d3_round q)%Z.
Proof.
  intro H. unfold d3_round. rewrite <- (Qfloor_Z lo).
  apply Qfloor_resp_le, H.
Qed.

Lemma d3_round_upper (q : Q) (hi : Z) :
  q + (1 # 2) < inject_Z (hi + 1) -> (d3_round q <= hi)%Z.
Proof.
  intro H. unfold d3_round.
  assert (Hlt : inject_Z (Qfloor (q + (1 # 2))) < inject_Z (hi + 1))
    by (eapply Qle_lt_trans; [apply Qfloor_le|exact H]).
  rewrite <- Zlt_Qlt in Hlt. lia.
Qed.

Lemma d3_round_above (q : Q) : q + (1 # 2) < inject_Z (d3_round q + 1).
Proof. unfold d3_round. apply Qlt_floor. Qed.

Lemma d3_round_below (q : Q) : inject_Z (d3_round q) <= q + (1 # 2).
Proof. unfold d3_round. apply Qfloor_le. Qed.

(** X10: the step the policy hands to the axis is at least 1 in the years
    branch and between 1 and 4 in the weeks branch, but in the days branch
    it is between 0 and 4 and is 0 exactly when the scaling is below 1/60,
    and in the hours branch it is at most 2 and is 0 for every scaling from
    [-1/1460] up to [1/1460]. *)
Theorem tick_step_bounds (s : Q) :
  (12 < s ->
   exists k, tickPolicy s = Some (mkTicks Years (Some (inject_Z k)) "%Y") /\
             (1 <= k)%Z) /\
  (1 / 7 < s /\ s <= 1 ->
   exists k, tickPolicy s = Some (mkTicks Weeks (Some (inject_Z k)) "%d/%m/%y") /\
             (1 <= k <= 4)%Z) /\
  (1 / 365 < s /\ s <= 1 / 7 ->
   exists k, tickPolicy s = Some (mkTicks Days (Some (inject_Z k)) "%d/%m/%y") /\
             (0 <= k <= 4)%Z /\ (k = 0%Z <-> s < 1 / 60)) /\
  (s <= 1 / 365 ->
   exists k, tickPolicy s = Some (mkTicks Hours (Some (inject_Z k)) "%I %p") /\
             (k <= 2)%Z /\
             (k = 0%Z <-> - (1 / 1460) <= s /\ s < 1 / 1460)).
Proof.
  change (1 / 7) with (1 # 7). change (1 / 365) with (1 # 365).
  change (1 / 60) with (1 # 60). change (1 / 1460) with (1 # 1460).
  repeat split.
  - intro H. eexists. split; [apply tickPolicy_years, H|].
    apply d3_round_lower. change (inject_Z 1) with 1.
    unfold Qdiv. change (/ 12) with (1 # 12). lra.
  - intros [H1 H2]. eexists.
    split; [apply tickPolicy_weeks; assumption|]. split.
    + apply d3_round_lower. change (inject_Z 1) with 1.
      change 4.3 with (43 # 10). lra.
    + apply d3_round_upper. change (inject_Z (4 + 1)) with 5.
      change 4.3 with (43 # 10). lra.
  - intros [H1 H2]. eexists.
    split; [apply tickPolicy_days; assumption|]. split; [split|split].
    + apply d3_round_lower. change (inject_Z 0) with 0. lra.
    + apply d3_round_upper. change (inject_Z (4 + 1)) with 5. lra.
    + intro E. assert (Ha := d3_round_above (s * 30)). rewrite E in Ha.
      change (inject_Z (0 + 1)) with 1 in Ha. lra.
    + intro Hs. assert (0 <= d3_round (s * 30) <= 0)%Z; [|lia]. split.
      * apply d3_round_lower. change (inject_Z 0) with 0. lra.
      * apply d3_round_upper. change (inject_Z (0 + 1)) with 1. lra.
  - intro H. eexists. split; [apply tickPolicy_hours, H|]. split; [|split].
    + apply d3_round_upper. change (inject_Z (2 + 1)) with 3. lra.
    + intro E. assert (Ha := d3_round_above (s * 730)).
      assert (Hb := d3_round_below (s * 730)). rewrite E in Ha, Hb.
      change (inject_Z (0 + 1)) with 1 in Ha. change (inject_Z 0) with 0 in Hb.
      split; lra.
    + intros [Hlo Hhi]. assert (0 <= d3_round (s * 730) <= 0)%Z; [|lia]. split.
      * apply d3_round_lower. change (inject_Z 0) with 0. lra.
      * apply d3_round_upper. change (inject_Z (0 + 1)) with 1. lra.
Qed.

(** ** The time scale under zooming, redrawing and dragging *)

Section ScaleFacts.
Variables d0 d1 w : Z.
Hypothesis Hdom : (d0 < d1)%Z.
Hypothesis Hw : (0 < w)%Z.

Let xs := mkXScale (Some d0, Some d1) (0%Z, w).

(** A date of the domain is drawn inside the range. *)
Lemma scaleX_inside (t : Z) :
  (d0 <= t <= d1)%Z ->
  exists x, scaleX xs (Some t) = Some x /\ 0 <= x /\ x <= inject_Z w.
Proof.
  intros [Hlo Hhi]. eexists. split; [reflexivity|].
  assert (HD := span_pos Hdom).
  set (u := inject_Z (t - d0) / inject_Z (d1 - d0)).
  assert (Hu0 : 0 <= u).
  { apply Qle_shift_div_l; [exact HD|]. rewrite Qmult_0_l.
    change 0 with (inject_Z 0). rewrite <- Zle_Qle. lia. }
  assert (Hu1 : u <= 1).
  { apply Qle_shift_div_r; [exact HD|]. rewrite Qmult_1_l.
    rewrite <- Zle_Qle. lia. }
  assert (HW : 0 < inject_Z (w - 0)) by (apply width_pos; exact Hw).
  assert (Ew : inject_Z w == inject_Z (w - 0))
    by (replace (w - 0)%Z with w by lia; reflexivity).
  change (inject_Z 0) with 0. split.
  - assert (0 <= inject_Z (w - 0) * u)
      by (apply Qmult_le_0_compat; [apply Qlt_le_weak, HW|exact Hu0]).
    lra.
  - assert (inject_Z (w - 0) * u <= inject_Z (w - 0) * 1)
      by (apply Qmult_le_l; [exact HW|exact Hu1]).
    lra.
Qed.

End ScaleFacts.

Lemma floor_shift_bounds (x : Q) (w : Z) :
  0 <= x -> x <= inject_Z w ->
  (-1 <= d3_round (x - 1.5) <= w - 1)%Z /\ (1 <= d3_round (x + 0.5) <= w + 1)%Z.
Proof.
  intros H0 Hw.
  assert (Ew1 : inject_Z (w - 1 + 1) == inject_Z w)
    by (replace (w - 1 + 1)%Z with w by lia; reflexivity).
  assert (Ew2 : inject_Z (w + 1 + 1) == inject_Z w + 2).
  { rewrite !inject_Z_plus. change (inject_Z 1) with 1. ring. }
  change 1.5 with (15 # 10). change 0.5 with (5 # 10).
  repeat split.
  - apply d3_round_lower. change (inject_Z (-1)) with (-1 # 1). lra.
  - apply d3_round_upper. rewrite Ew1. lra.
  - apply d3_round_lower. change (inject_Z 1) with 1. lra.
  - apply d3_round_upper. rewrite Ew2. lra.
Qed.

(** X11: after a [redraw] on a domain [d0 < d1] and a positive width, a
    selected date of the domain has its marker at an [x] from -1 to
    [width - 1], and a current date of the domain has the now line at an [x]
    from 1 to [width + 1]. *)
Theorem redraw_markers_in_chart (st : Widget) (d0 d1 : Z) :
  x_domain (xScale st) = (Some d0, Some d1) ->
  (d0 < d1)%Z -> (0 < width st)%Z ->
  (forall t, selectedDate st = Some t -> (d0 <= t <= d1)%Z ->
     exists k, selectedDateLine (view (redraw st)) = Some k /\
               (-1 <= k <= width st - 1)%Z) /\
  ((d0 <= now st <= d1)%Z ->
     exists k, nowLine (view (redraw st)) = Some k /\
               (1 <= k <= width st + 1)%Z).
Proof.
  intros Hd Hdom Hw. unfold redraw.
  cbn [view set_view selectedDateLine nowLine]. rewrite Hd. split.
  - intros t Ht Hin. rewrite Ht.
    destruct (scaleX_inside Hdom Hw Hin) as (x & Hx & H0 & H1).
    rewrite Hx. cbn [option_map]. eexists. split; [reflexivity|].
    apply (floor_shift_bounds H0 H1).
  - intro Hin.
    destruct (scaleX_inside Hdom Hw Hin) as (x & Hx & H0 & H1).
    rewrite Hx. cbn [option_map]. eexists. split; [reflexivity|].
    apply (floor_shift_bounds H0 H1).
Qed.

Lemma redraw_markers_in_chart_witness :
  exists st,
    year2020 = Some st /\
    x_domain (xScale st) = (Some 1577836800000%Z, Some 1609372800000%Z) /\
    (1577836800000 < 1609372800000)%Z /\ (0 < width st)%Z /\
    selectedDate st = Some 1600000000000%Z /\
    exists k, selectedDateLine (view (redraw st)) = Some k /\
              (-1 <= k <= width st - 1)%Z.
Proof.
  eexists. split; [reflexivity|]. split; [reflexivity|]. split; [lia|].
  split; [reflexivity|]. split; [reflexivity|].
  match goal with
  | |- exists k, selectedDateLine (view (redraw ?s)) = _ /\ _ =>
      destruct (@redraw_markers_in_chart s 1577836800000 1609372800000
                  eq_refl eq_refl eq_refl) as [Hsel _];
      apply (Hsel 1600000000000%Z eq_refl)
  end.
  lia.
Defined.



(** What a drag step leaves alone. *)
Definition same_but_drag (st st' : Widget) : Prop :=
  selectedDate st' = selectedDate st /\
  timebars st' = timebars st /\
  height st' = height st /\
  width st' = width st /\
  xScale st' = xScale st /\
  yScale st' = yScale st /\
  visible st' = visible st /\
  lanes (view st') = lanes (view st) /\
  nowLine (view st') = nowLine (view st) /\
  redraws (view st') = redraws (view st).

Lemma dragBy_frame (dxs : list Q) : forall st, same_but_drag st (dragBy dxs st).
Proof.
  induction dxs as [|dx dxs IH]; intro st.
  - repeat split.
  - destruct (IH (dragDate dx st)) as (H1 & H2 & H3 & H4 & H5 & H6 & H7 & H8 & H9 & H10).
    cbn [dragBy fold_left]. unfold same_but_drag.
    split; [exact H1|]. split; [exact H2|]. split; [exact H3|].
    split; [exact H4|]. split; [exact H5|]. split; [exact H6|].
    split; [exact H7|]. split; [exact H8|]. split; [exact H9|exact H10].
Qed.

(** X14: a drag gesture changes nothing but the dragged date and the
    marker: while dragging, the selected date, the bars, the geometry, the
    scales and the lanes stay and no redraw is done; [dragDateEnd] then
    makes the dragged date the selected date. *)
Theorem drag_gesture_commits (dxs : list Q) (st : Widget) :
  same_but_drag st (dragBy dxs st) /\
  selectedDate (dragDateEnd (dragBy dxs st)) = draggedDate (dragBy dxs st) /\
  draggedDate (dragDateEnd (dragBy dxs st)) = draggedDate (dragBy dxs st).
Proof.
  split; [apply dragBy_frame|]. split; reflexivity.
Qed.

(** ** Dragged and selected date *)

Definition is_drag (a : Action) : bool :=
  match a with
  | DragDate _ => true
  | _ => false
  end.

Lemma act_keeps_dates_equal (a : Action) (st : Widget) :
  is_drag a = false ->
  draggedDate st = selectedDate st ->
  draggedDate (act a st) = selectedDate (act a st).
Proof.
  intros Ha H. destruct a; try discriminate; cbn [act]; try exact H.
  - rewrite removeTimeBarByName_unfold.
    destruct (existsb _ (timebars st)); exact H.
  - unfold resize. destruct (visible st); exact H.
  - reflexivity.
  - reflexivity.
Qed.

Lemma run_keeps_dates_equal (acts : list Action) : forall st,
  forallb (fun a => negb (is_drag a)) acts = true ->
  draggedDate st = selectedDate st ->
  draggedDate (run acts st) = selectedDate (run acts st).
Proof.
  induction acts as [|a acts IH]; intros st Hacts H0; [exact H0|].
  cbn [forallb] in Hacts. apply andb_true_iff in Hacts as [Ha Hrest].
  cbn [run fold_left]. apply IH; [exact Hrest|].
  apply act_keeps_dates_equal; [|exact H0]. apply negb_true_iff, Ha.
Qed.

Lemma TimeLine_dates (cw clock : Z) (o : Options.t) :
  exists st, TimeLine (Some cw) o clock = Some st /\
             draggedDate st = selectedDate st.
Proof. eexists. split; reflexivity. Qed.

(** X15: outside a drag the dragged date is the selected date: it is so
    after the constructor and stays so under every call and event other
    than a drag step; after drag steps, [dragDateEnd] or [setDate] makes it
    so again. *)
Theorem dragged_is_selected_outside_drag (cw clock : Z) (o : Options.t)
  (acts : list Action) :
  exists st0,
    TimeLine (Some cw) o clock = Some st0 /\
    draggedDate st0 = selectedDate st0 /\
    (forallb (fun a => negb (is_drag a)) acts = true ->
     draggedDate (run acts st0) = selectedDate (run acts st0)) /\
    draggedDate (dragDateEnd (run acts st0))
    = selectedDate (dragDateEnd (run acts st0)) /\
    (forall d, draggedDate (setDate d (run acts st0)) = d /\
               selectedDate (setDate d (run acts st0)) = d).
Proof.
  destruct (TimeLine_dates cw clock o) as (st0 & Hst0 & H0).
  exists st0. split; [exact Hst0|]. split; [exact H0|].
  split; [|split; [reflexivity|intro d; split; reflexivity]].
  intro Hacts. apply run_keeps_dates_equal; assumption.
Qed.

(** ** Hiding and resizing *)

Definition resizes (cws : list Z) (st : Widget) : Widget :=
  fold_left (fun st cw => resize cw st) cws st.

Lemma resizes_hidden (cws : list Z) : forall st,
  visible st = false -> resizes cws st = st.
Proof.
  induction cws as [|cw cws IH]; intros st H; [reflexivity|].
  cbn [resizes fold_left]. unfold resize at 2. rewrite H. apply IH, H.
Qed.

(** X16: resize events that arrive while the widget is hidden are lost:
    after [hide], any number of them, and [show], the widget is as after
    [hide] and [show] alone, so it still has the width, the x range and the
    display of before, whatever width the container has by then. *)
Theorem resize_while_hidden_is_lost (cws : list Z) (st : Widget) :
  show (resizes cws (hide st)) = show st /\
  width (show (resizes cws (hide st))) = width st /\
  x_range (xScale (show (resizes cws (hide st)))) = x_range (xScale st) /\
  view (show (resizes cws (hide st))) = view st.
Proof.
  rewrite resizes_hidden by reflexivity. repeat split.
Qed.

(** ** More on getNearestInArray *)

(** X17: when [goal] is itself in the array, [getNearestInArray] returns a
    number equal to it. *)
Theorem getNearestInArray_hit (arr : list Q) (goal : Q) :
  In goal arr ->
  exists e, getNearestInArray arr goal = Some e /\ e == goal.
Proof.
  intro Hin.
  destruct (@getNearestInArray_spec goal arr) as (e & i & He & _ & Hmin & _).
  { intro E. rewrite E in Hin. exact Hin. }
  exists e. split; [exact He|].
  specialize (Hmin goal Hin).
  assert (Hz : Qabs (goal - goal) == 0).
  { setoid_replace (goal - goal) with 0 by ring. reflexivity. }
  rewrite Hz in Hmin. apply Qabs_Qle_condition in Hmin. lra.
Qed.

Lemma getNearestInArray_hit_witness :
  In 6 [1; 2; 3; 4; 6; 12] /\
  exists e, getNearestInArray [1; 2; 3; 4; 6; 12] 6 = Some e /\ e == 6.
Proof.
  assert (Hin : In 6 [1; 2; 3; 4; 6; 12])
    by (right; right; right; right; left; reflexivity).
  split; [exact Hin|]. apply (getNearestInArray_hit _ _ Hin).
Defined.

(** ** More on the initial domain *)

(** X18: the constructor never builds an inverted domain from well-formed
    bars: when every bar starts no later than it ends, [minDate <= maxDate],
    and every bar lies inside the domain; without bars and with a valid
    selected date, [minDate < maxDate]. *)
Theorem initial_domain_ordered (cw clock : Z) (o : Options.t) :
  exists st,
    TimeLine (Some cw) o clock = Some st /\
    (timebars st <> [] ->
     (forall b, In b (timebars st) -> (startDate b <= endDate b)%Z) ->
     exists lo hi,
       x_domain (xScale st) = (Some lo, Some hi) /\ (lo <= hi)%Z /\
       forall b, In b (timebars st) ->
                 (lo <= startDate b)%Z /\ (endDate b <= hi)%Z) /\
    (timebars st = [] ->
     forall s, selectedDate st = Some s ->
       exists lo hi,
         x_domain (xScale st) = (Some lo, Some hi) /\ (lo < s < hi)%Z).
Proof.
  destruct (TimeLine_domain cw clock o) as (st & Hst & Hbars & Hsel & Hdom).
  exists st. split; [exact Hst|]. split.
  - intros Hne Hwf. rewrite Hdom. unfold init_domain.
    destruct (@d3_min_spec (map startDate (timebars st)))
      as (lo & Elo & Hlo & Hmin).
    { intro E. apply map_eq_nil in E. contradiction. }
    destruct (@d3_max_spec (map endDate (timebars st)))
      as (hi & Ehi & Hhi & Hmax).
    { intro E. apply map_eq_nil in E. contradiction. }
    exists lo, hi. rewrite Elo, Ehi. split; [reflexivity|].
    assert (Hall : forall b, In b (timebars st) ->
                     (lo <= startDate b)%Z /\ (endDate b <= hi)%Z).
    { intros b Hb. split; [apply Hmin|apply Hmax]; apply in_map, Hb. }
    split; [|exact Hall].
    apply in_map_iff in Hlo as (b & <- & Hb).
    specialize (Hwf b Hb). destruct (Hall b Hb). lia.
  - intros Hnil s Hs. rewrite Hdom, Hnil, Hs. cbn.
    eexists. eexists. split; [reflexivity|]. lia.
Qed.

(** ** gisportal.graphs.create *)

Section CreateFacts.
Variables Graph Opts : Type.
Variable timeseries : graphs.Data -> Opts -> option Graph.
Variable histogram : graphs.Data -> Opts -> option Graph.

Lemma create_error (data : graphs.Data) (options : Opts) :
  graphs.error data <> Given EmptyString ->
  graphs.create timeseries histogram data options
  = [graphs.ShowNotification Graph (graphs.error data)].
Proof.
  intro H. unfold graphs.create.
  destruct (graphs.error data) as [| |[|c s]]; try reflexivity.
  congruence.
Qed.

Lemma build_some (data : graphs.Data) (options : Opts) (g : Graph) :
  graphs.build timeseries histogram data options = Some g <->
  (graphs.type data = Given "timeseries"%string /\
   timeseries data options = Some g) \/
  (graphs.type data = Given "histogram"%string /\
   histogram data options = Some g).
Proof.
  unfold graphs.build.
  destruct (graphs.type data) as [| |t].
  - split; [discriminate|]. intros [[H _]|[H _]]; discriminate.
  - split; [discriminate|]. intros [[H _]|[H _]]; discriminate.
  - destruct (String.eqb t "timeseries") eqn:Et;
      [|destruct (String.eqb t "histogram") eqn:Eh].
    + apply String.eqb_eq in Et. subst t. split.
      * intro H. left. split; [reflexivity|exact H].
      * intros [[_ H]|[H _]]; [exact H|discriminate].
    + apply String.eqb_eq in Eh. subst t. split.
      * intro H. right. split; [reflexivity|exact H].
      * intros [[H _]|[_ H]]; [discriminate|exact H].
    + apply String.eqb_neq in Et. apply String.eqb_neq in Eh.
      split; [discriminate|].
      intros [[H _]|[H _]]; injection H as ->; contradiction.
Qed.

(** X19: [gisportal.graphs.create] appends a graph to the page exactly when
    [data.error] is the empty string, [data.type] is ['timeseries'] or
    ['histogram'] and the builder of that type returned a graph; it is
    appended to the list item of [data.coverage].  For any other
    [data.error], an absent or [null] one included, the only effect is the
    error notification, whatever the type. *)
Theorem create_appends_only_on_success (data : graphs.Data) (options : Opts) :
  (forall c g,
      In (graphs.Append c g)
         (graphs.create timeseries histogram data options) <->
      graphs.error data = Given EmptyString /\
      c = graphs.coverage data /\
      ((graphs.type data = Given "timeseries"%string /\
        timeseries data options = Some g) \/
       (graphs.type data = Given "histogram"%string /\
        histogram data options = Some g))) /\
  (graphs.error data <> Given EmptyString ->
   graphs.create timeseries histogram data options
   = [graphs.ShowNotification Graph (graphs.error data)]) /\
  (graphs.error data = Given EmptyString ->
   forall e,
     ~ In (graphs.ShowNotification Graph e)
          (graphs.create timeseries histogram data options)).
Proof.
  split; [|split; [apply create_error|]].
  - intros c g. split.
    + intro Hin.
      destruct (graphs.error data) as [| |[|ch s]] eqn:E;
        try (rewrite create_error in Hin by (rewrite E; discriminate);
             destruct Hin as [H|[]]; discriminate).
      unfold graphs.create in Hin. rewrite E in Hin.
      destruct (graphs.build timeseries histogram data options) as [g'|] eqn:B;
        [|destruct Hin].
      destruct Hin as [H|[]]. injection H as <- <-.
      split; [reflexivity|]. split; [reflexivity|]. apply build_some, B.
    + intros (E & -> & Hb). apply build_some in Hb.
      unfold graphs.create. rewrite E, Hb. left. reflexivity.
  - intros E e Hin. unfold graphs.create in Hin. rewrite E in Hin.
    destruct (graphs.build timeseries histogram data options);
      [destruct Hin as [H|[]]; discriminate|destruct Hin].
Qed.
End CreateFacts.

(** ** The axis swap of loadFeatures *)

Section SwapFacts.
Variable Cell : Type.
Variable undefined : Cell.

(** A point of flat coordinates: its first two components and the others. *)
Definition point : Type := (Cell * Cell * list Cell)%type.

Definition flatPoint (p : point) : list Cell :=
  let '(x, y, rest) := p in x :: y :: rest.

Definition flat (pts : list point) : list Cell := concat (map flatPoint pts).

Definition swapPoint (p : point) : point :=
  let '(x, y, rest) := p in (y, x, rest).

(** Every point has [stride] components. *)
Definition strided (stride : nat) (pts : list point) : Prop :=
  Forall (fun p => length (flatPoint p) = stride) pts.

Lemma write_at (pre : list Cell) (v c : Cell) (rest : list Cell) :
  write undefined (length pre) v (pre ++ c :: rest) = pre ++ v :: rest.
Proof.
  induction pre as [|a pre IH]; [reflexivity|].
  cbn [length app write]. rewrite IH. reflexivity.
Qed.

Lemma write_at_end (pre : list Cell) (v : Cell) :
  write undefined (length pre) v pre = pre ++ [v].
Proof.
  induction pre as [|a pre IH]; [reflexivity|].
  cbn [length app write]. rewrite IH. reflexivity.
Qed.

Lemma nth_at (pre : list Cell) (c : Cell) (rest : list Cell) :
  nth (length pre) (pre ++ c :: rest) undefined = c.
Proof. apply nth_middle. Qed.

Lemma swapLoop_points (stride : nat) (pts : list point) :
  strided stride pts ->
  forall fuel pre,
    (length pts <= fuel)%nat ->
    swapLoop undefined fuel stride (length pre) (pre ++ flat pts)
    = Some (pre ++ flat (map swapPoint pts)).
Proof.
  induction 1 as [|[[x y] rest] pts Hp Hpts IH]; intros fuel pre Hfuel.
  - cbn [flat map concat]. rewrite app_nil_r.
    destruct fuel; cbn [swapLoop]; rewrite Nat.ltb_irrefl; reflexivity.
  - destruct fuel as [|fuel]; [cbn in Hfuel; lia|].
    cbn [flat map concat flatPoint swapPoint] in *.
    fold (flat pts). fold (flat (map swapPoint pts)).
    cbn [swapLoop].
    replace (length pre <? length (pre ++ (x :: y :: rest) ++ flat pts))%nat
      with true
      by (symmetry; apply Nat.ltb_lt; rewrite length_app; cbn; lia).
    cbn [app]. rewrite nth_at.
    replace (nth (length pre + 1) (pre ++ x :: y :: rest ++ flat pts) undefined)
      with y.
    2: { replace (pre ++ x :: y :: rest ++ flat pts)
           with ((pre ++ [x]) ++ y :: rest ++ flat pts)
           by (rewrite <- app_assoc; reflexivity).
         replace (length pre + 1)%nat with (length (pre ++ [x]))
           by (rewrite length_app; reflexivity).
         symmetry. apply nth_at. }
    rewrite write_at.
    replace (pre ++ y :: y :: rest ++ flat pts)
      with ((pre ++ [y]) ++ y :: rest ++ flat pts)
      by (rewrite <- app_assoc; reflexivity).
    replace (length pre + 1)%nat with (length (pre ++ [y]))
      by (rewrite length_app; reflexivity).
    rewrite write_at.
    replace ((pre ++ [y]) ++ x :: rest ++ flat pts)
      with ((pre ++ y :: x :: rest) ++ flat pts)
      by (rewrite <- !app_assoc; reflexivity).
    replace (length pre + stride)%nat with (length (pre ++ y :: x :: rest))
      by (rewrite length_app; cbn [length] in *; lia).
    rewrite IH by (cbn in Hfuel; lia).
    rewrite <- app_assoc. reflexivity.
Qed.

Lemma strided_swap (stride : nat) (pts : list point) :
  strided stride pts -> strided stride (map swapPoint pts).
Proof.
  induction 1 as [|[[x y] rest] pts Hp Hpts IH]; constructor; assumption.
Qed.

Lemma swapPoint_twice (pts : list point) :
  map swapPoint (map swapPoint pts) = pts.
Proof.
  induction pts as [|[[x y] rest] pts IH]; [reflexivity|].
  cbn [map swapPoint]. rewrite IH. reflexivity.
Qed.

(** X20: on flat coordinates made of points of [stride] components each, the
    transform of [loadFeatures] ends after one step per point and exchanges
    the first two components of every point, leaving the others and the
    length as they are; applied twice it gives the coordinates back. *)
Theorem swapLoop_swaps_axes (stride : nat) (pts : list point) (fuel : nat) :
  strided stride pts -> (length pts <= fuel)%nat ->
  swapLoop undefined fuel stride 0 (flat pts) = Some (flat (map swapPoint pts)) /\
  length (flat (map swapPoint pts)) = length (flat pts) /\
  swapLoop undefined fuel stride 0 (flat (map swapPoint pts)) = Some (flat pts).
Proof.
  intros Hs Hfuel. split; [|split].
  - apply (@swapLoop_points stride pts Hs fuel [] Hfuel).
  - clear. induction pts as [|[[x y] rest] pts IH]; [reflexivity|].
    change (length (y :: x :: rest ++ flat (map swapPoint pts))
            = length (x :: y :: rest ++ flat pts)).
    cbn [length]. rewrite !length_app, IH. reflexivity.
  - rewrite <- (swapPoint_twice pts) at 2.
    apply (@swapLoop_points stride (map swapPoint pts)
             (strided_swap Hs) fuel []).
    rewrite length_map. exact Hfuel.
Qed.
End SwapFacts.

Lemma swapLoop_swaps_axes_witness :
  strided 3 [(1, 2, [3]); (4, 5, [6])]%Z /\
  (2 <= 2)%nat /\
  swapLoop 0%Z 2 3 0 [1; 2; 3; 4; 5; 6]%Z = Some [2; 1; 3; 5; 4; 6]%Z.
Proof.
  assert (Hs : strided 3 [(1, 2, [3]); (4, 5, [6])]%Z)
    by (repeat constructor).
  split; [exact Hs|]. split; [lia|].
  apply (proj1 (@swapLoop_swaps_axes Z 0%Z 3 _ 2 Hs (le_n 2))).
Defined.

(** ** The arithmetic in doubles *)

Module DoublesFacts.
Import Stdlib.Floats.PrimFloat Stdlib.Floats.SpecFloat Stdlib.Floats.FloatOps
  Stdlib.Floats.FloatAxioms.
Import Doubles.
Local Open Scope float_scope.

(** ** The order of doubles

    [SFcompare] orders the non-[NaN] numbers by sign, exponent and
    mantissa; the facts below follow from its definition by cases. *)

Ltac sf_cases :=
  repeat match goal with
  | |- context [Z.compare ?a ?b] => destruct (Z.compare_spec a b)
  | |- context [Pos.compare_cont Eq ?a ?b] =>
      change (Pos.compare_cont Eq a b) with (Pos.compare a b);
      destruct (Pos.compare_spec a b)
  | H : context [Z.compare ?a ?b] |- _ => destruct (Z.compare_spec a b)
  | H : context [Pos.compare_cont Eq ?a ?b] |- _ =>
      change (Pos.compare_cont Eq a b) with (Pos.compare a b) in H;
      destruct (Pos.compare_spec a b)
  end.

Ltac sf_order :=
  unfold SFltb, SFleb, SFeqb, SFcompare;
  intros;
  repeat match goal with
  | x : spec_float |- _ => destruct x as [[|]|[|]| |[|] ? ?]
  end;
  try discriminate; try reflexivity;
  sf_cases; cbn [CompOpp] in *; try discriminate; try reflexivity;
  subst; try lia.

Lemma SFltb_trans (x y z : spec_float) :
  SFltb x y = true -> SFltb y z = true -> SFltb x z = true.
Proof. sf_order. Qed.

Lemma SFleb_ltb_trans (x y z : spec_float) :
  SFleb x y = true -> SFltb y z = true -> SFltb x z = true.
Proof. sf_order. Qed.

Lemma SFltb_leb_trans (x y z : spec_float) :
  SFltb x y = true -> SFleb y z = true -> SFltb x z = true.
Proof. sf_order. Qed.

Lemma SFleb_trans (x y z : spec_float) :
  SFleb x y = true -> SFleb y z = true -> SFleb x z = true.
Proof. sf_order. Qed.

Lemma SFleb_not_ltb (x y : spec_float) :
  SFleb x y = true -> SFltb y x = false.
Proof. sf_order. Qed.

Lemma SFltb_irrefl (x : spec_float) : SFltb x x = false.
Proof. sf_order. Qed.

Lemma SFeqb_leb (x y : spec_float) :
  SFeqb x y = true -> SFleb x y = true /\ SFleb y x = true.
Proof. intro H. split; revert H; sf_order. Qed.

Lemma SFleb_total (x y : spec_float) :
  SFleb x x = true -> SFleb y y = true ->
  SFltb y x = true \/ SFleb x y = true.
Proof. sf_order; (left; reflexivity) || (right; reflexivity). Qed.

Lemma SFleb_refl_l (x y : spec_float) :
  SFleb x y = true -> SFleb x x = true /\ SFleb y y = true.
Proof. intro H. split; revert H; sf_order. Qed.

Lemma SFltb_refl_l (x y : spec_float) :
  SFltb x y = true -> SFleb x x = true /\ SFleb y y = true.
Proof. intro H. split; revert H; sf_order. Qed.

Lemma ltb_trans (x y z : float) :
  (x <? y) = true -> (y <? z) = true -> (x <? z) = true.
Proof. rewrite !ltb_spec. apply SFltb_trans. Qed.

Lemma leb_ltb_trans (x y z : float) :
  (x <=? y) = true -> (y <? z) = true -> (x <? z) = true.
Proof. rewrite !ltb_spec, leb_spec. apply SFleb_ltb_trans. Qed.

Lemma ltb_leb_trans (x y z : float) :
  (x <? y) = true -> (y <=? z) = true -> (x <? z) = true.
Proof. rewrite !ltb_spec, leb_spec. apply SFltb_leb_trans. Qed.

Lemma leb_trans (x y z : float) :
  (x <=? y) = true -> (y <=? z) = true -> (x <=? z) = true.
Proof. rewrite !leb_spec. apply SFleb_trans. Qed.

Lemma leb_not_ltb (x y : float) : (x <=? y) = true -> (y <? x) = false.
Proof. rewrite ltb_spec, leb_spec. apply SFleb_not_ltb. Qed.

Lemma ltb_irrefl (x : float) : (x <? x) = false.
Proof. rewrite ltb_spec. apply SFltb_irrefl. Qed.

Lemma eqb_leb (x y : float) :
  (x =? y) = true -> (x <=? y) = true /\ (y <=? x) = true.
Proof. rewrite eqb_spec, !leb_spec. apply SFeqb_leb. Qed.

Lemma leb_total (x y : float) :
  (x <=? x) = true -> (y <=? y) = true ->
  (y <? x) = true \/ (x <=? y) = true.
Proof. rewrite ltb_spec, !leb_spec. apply SFleb_total. Qed.

Lemma leb_comparable (x y : float) :
  (x <=? y) = true -> (x <=? x) = true /\ (y <=? y) = true.
Proof. rewrite !leb_spec. apply SFleb_refl_l. Qed.

Lemma ltb_comparable (x y : float) :
  (x <? y) = true -> (x <=? x) = true /\ (y <=? y) = true.
Proof. rewrite ltb_spec, !leb_spec. apply SFltb_refl_l. Qed.

(** [x <= a < b] excludes [b < x]. *)
Lemma leb_below (x a b : float) :
  (x <=? a) = true -> (a <? b) = true -> (b <? x) = false.
Proof.
  intros H1 H2. destruct (b <? x) eqn:E; [|reflexivity].
  pose proof (@ltb_leb_trans _ _ _ E H1) as H3.
  pose proof (@ltb_trans _ _ _ H2 H3) as H4.
  rewrite ltb_irrefl in H4. discriminate.
Qed.

(** ** Rounding *)

(** [k] is the integer nearest to [v], the upper one at a tie. *)
Definition nearest_integer (v : Q) (k : Z) : Prop :=
  (inject_Z k - (1 # 2) <= v /\ v < inject_Z k + (1 # 2))%Q.

(** What [Math.round] is specified to return. *)
Definition rounds (x : float) (r : rounded) : Prop :=
  match r with
  | RInt k => exists v, F2Q x = Some v /\ nearest_integer v k
  | RInfinity negative => Prim2SF x = S754_infinity negative
  | RNaN => Prim2SF x = S754_nan
  end.

(** The value of a double, on a few of them. *)
Example F2Q_values :
  option_map Qred (F2Q 1.5) = Some (3 # 2)%Q /\
  option_map Qred (F2Q (Z2F (-3))) = Some (-3 # 1)%Q /\
  option_map Qred (F2Q (1 / 4)) = Some (1 # 4)%Q /\
  F2Q 0 = Some 0%Q /\
  F2Q infinity = None /\
  F2Q nan = None.
Proof. vm_compute. repeat split. Qed.

Lemma d3_round_nearest (v : Q) : nearest_integer v (d3_round v).
Proof.
  unfold nearest_integer.
  assert (Ha := d3_round_above v). assert (Hb := d3_round_below v).
  rewrite inject_Z_plus in Ha. change (inject_Z 1) with 1%Q in Ha.
  split; lra.
Qed.

Lemma d3_roundF_rounds (x : float) : rounds x (d3_roundF x).
Proof.
  unfold d3_roundF, rounds, F2Q.
  destruct (Prim2SF x) as [s|s| |s m e]; cbn [SF2Q].
  - exists 0%Q. split; [reflexivity|apply d3_round_nearest].
  - reflexivity.
  - reflexivity.
  - eexists. split; [reflexivity|apply d3_round_nearest].
Qed.

(** ** Numbers that are not [NaN]

    A difference of two finite doubles is a number: the rounding of
    [SpecFloat] returns [NaN] only for a negative mantissa, which it is
    never given. *)

Definition finiteSF (f : spec_float) : bool :=
  match f with
  | S754_zero _ | S754_finite _ _ _ => true
  | _ => false
  end.

Definition numberSF (f : spec_float) : bool :=
  match f with
  | S754_nan => false
  | _ => true
  end.

Lemma shr_1_nonneg (mrs : shr_record) :
  (0 <= shr_m mrs)%Z -> (0 <= shr_m (shr_1 mrs))%Z.
Proof.
  destruct mrs as [m r s]. cbn [shr_m]. intro H.
  destruct m as [|[p|p|]|p]; cbn; lia.
Qed.

Lemma iter_shr_1_nonneg (p : positive) : forall mrs,
  (0 <= shr_m mrs)%Z -> (0 <= shr_m (iter_pos shr_1 p mrs))%Z.
Proof.
  induction p as [p IH|p IH|]; intros mrs H; cbn [iter_pos].
  - apply IH, IH, shr_1_nonneg, H.
  - apply IH, IH, H.
  - apply shr_1_nonneg, H.
Qed.

Lemma shr_fexp_nonneg (prec emax m e : Z) (l : location) :
  (0 <= m)%Z -> (0 <= shr_m (fst (shr_fexp prec emax m e l)))%Z.
Proof.
  intro H. unfold shr_fexp, shr.
  assert (H0 : (0 <= shr_m (shr_record_of_loc m l))%Z)
    by (destruct l as [|[| |]]; exact H).
  destruct (fexp prec emax (Zdigits2 m + e) - e)%Z; cbn [fst]; try exact H0.
  apply iter_shr_1_nonneg, H0.
Qed.

Lemma round_nearest_even_nonneg (m : Z) (l : location) :
  (0 <= m)%Z -> (0 <= round_nearest_even m l)%Z.
Proof.
  intro H. destruct l as [|[| |]]; cbn [round_nearest_even]; try lia.
  destruct (Z.even m); lia.
Qed.

Lemma binary_round_aux_number (prec emax : Z) (sx : bool) (mx ex : Z)
      (lx : location) :
  (0 <= mx)%Z -> numberSF (binary_round_aux prec emax sx mx ex lx) = true.
Proof.
  intro H. unfold binary_round_aux.
  pose proof (@shr_fexp_nonneg prec emax mx ex lx H) as H1.
  destruct (shr_fexp prec emax mx ex lx) as [mrs' e']. cbn [fst] in H1.
  pose proof (@shr_fexp_nonneg prec emax _ e' loc_Exact
                (@round_nearest_even_nonneg _ (loc_of_shr_record mrs') H1)) as H2.
  destruct (shr_fexp prec emax
              (round_nearest_even (shr_m mrs') (loc_of_shr_record mrs')) e'
              loc_Exact) as [mrs'' e''].
  cbn [fst] in H2.
  destruct (shr_m mrs'') as [|m|m]; [reflexivity| |lia].
  destruct (e'' <=? emax - prec)%Z; reflexivity.
Qed.

Lemma binary_normalize_number (prec emax m e : Z) (szero : bool) :
  numberSF (binary_normalize prec emax m e szero) = true.
Proof.
  unfold binary_normalize, binary_round.
  destruct m as [|m|m]; [reflexivity| |];
    match goal with
    | |- context [shl_align ?a ?b ?c] => destruct (shl_align a b c)
    end; apply binary_round_aux_number; lia.
Qed.

Lemma SFsub_number (prec emax : Z) (x y : spec_float) :
  finiteSF x = true -> finiteSF y = true ->
  numberSF (SFsub prec emax x y) = true.
Proof.
  destruct x as [sx|sx| |sx mx ex]; try discriminate;
    destruct y as [sy|sy| |sy my ey]; try discriminate; intros _ _;
    cbn [SFsub]; try reflexivity.
  - destruct sx, sy; reflexivity.
  - apply binary_normalize_number.
Qed.

Lemma SFleb_number (x : spec_float) : numberSF x = true -> SFleb x x = true.
Proof. sf_order. Qed.

Lemma SFabs_number (x : spec_float) : numberSF (SFabs x) = numberSF x.
Proof. destruct x; reflexivity. Qed.

Lemma SFbetween_finite (a s b : spec_float) :
  finiteSF a = true -> finiteSF b = true ->
  SFltb a s = true -> SFleb s b = true -> finiteSF s = true.
Proof.
  destruct a as [?|?| |? ? ?]; try discriminate;
    destruct b as [?|?| |? ? ?]; try discriminate;
    destruct s as [?|[|]| |? ? ?]; try reflexivity;
    unfold SFltb, SFleb, SFcompare; intros _ _;
    repeat match goal with b : bool |- _ => destruct b end;
    try discriminate.
Qed.

Definition finite (x : float) : bool := finiteSF (Prim2SF x).

(** The distance the code compares is a number when both ends are finite. *)
Lemma distance_comparable (e goal : float) :
  finite e = true -> finite goal = true ->
  (abs (e - goal) <=? abs (e - goal)) = true.
Proof.
  unfold finite. intros He Hg. rewrite leb_spec. apply SFleb_number.
  rewrite abs_spec, SFabs_number, sub_spec. apply SFsub_number; assumption.
Qed.

Lemma between_finite (a s b : float) :
  finite a = true -> finite b = true ->
  (a <? s) = true -> (s <=? b) = true -> finite s = true.
Proof. unfold finite. rewrite ltb_spec, leb_spec. apply SFbetween_finite. Qed.

Lemma SFltb_leb (x y : spec_float) : SFltb x y = true -> SFleb x y = true.
Proof. sf_order. Qed.

Lemma ltb_leb (x y : float) : (x <? y) = true -> (x <=? y) = true.
Proof. rewrite ltb_spec, leb_spec. apply SFltb_leb. Qed.

(** ** getNearestInArray in doubles *)

Section NearestF.
Variable goal : float.

(** [e], found at index [i] of [pre], is nearest to [goal] in [pre] and is
    the first such element, distances being the doubles the code compares. *)
Definition nearest_inF (pre : list float) (e : float) (i : nat) : Prop :=
  nth_error pre i = Some e /\
  (forall e', In e' pre -> (abs (e - goal) <=? abs (e' - goal)) = true) /\
  (forall j e', (j < i)%nat -> nth_error pre j = Some e' ->
                (abs (e - goal) <? abs (e' - goal)) = true).

Lemma nearest_inF_snoc_keep (pre : list float) (e : float) (i : nat)
      (x : float) :
  nearest_inF pre e i -> (abs (e - goal) <=? abs (x - goal)) = true ->
  nearest_inF (pre ++ [x]) e i.
Proof.
  intros (Hn & Hmin & Hfst) Hle. repeat split.
  - rewrite nth_error_app1; [exact Hn|].
    apply nth_error_Some. congruence.
  - intros e' Hin. apply in_app_or in Hin as [Hin|[<-|[]]]; auto.
  - intros j e' Hj He'. apply (Hfst j e' Hj).
    assert (i < length pre)%nat by (apply nth_error_Some; congruence).
    rewrite nth_error_app1 in He' by lia. exact He'.
Qed.

Lemma nearest_inF_snoc_take (pre : list float) (e : float) (i : nat)
      (x : float) :
  nearest_inF pre e i -> (abs (x - goal) <? abs (e - goal)) = true ->
  nearest_inF (pre ++ [x]) x (length pre).
Proof.
  intros (Hn & Hmin & Hfst) Hlt. repeat split.
  - rewrite nth_error_app2, Nat.sub_diag by lia. reflexivity.
  - intros e' Hin. apply in_app_or in Hin as [Hin|[<-|[]]].
    + apply ltb_leb. eapply ltb_leb_trans; [exact Hlt|auto].
    + apply (ltb_comparable Hlt).
  - intros j e' Hj He'. rewrite nth_error_app1 in He' by lia.
    eapply ltb_leb_trans; [exact Hlt|]. apply Hmin.
    eapply nth_error_In; eassumption.
Qed.

Lemma fold_nearestF (rest : list float) : forall pre e i,
  (forall x, In x (e :: rest) ->
             (abs (x - goal) <=? abs (x - goal)) = true) ->
  nearest_inF pre e i ->
  exists e' i', fold_left (nearest_stepF goal) rest (Some e) = Some e' /\
                nearest_inF (pre ++ rest) e' i'.
Proof.
  induction rest as [|x rest IH]; intros pre e i Hcmp Hinv.
  - exists e, i. rewrite app_nil_r. split; [reflexivity|exact Hinv].
  - cbn [fold_left nearest_stepF].
    replace (pre ++ x :: rest) with ((pre ++ [x]) ++ rest)
      by (rewrite <- app_assoc; reflexivity).
    destruct (abs (x - goal) <? abs (e - goal)) eqn:E.
    + eapply IH; [|eapply nearest_inF_snoc_take; eassumption].
      intros y Hy. apply Hcmp. right. exact Hy.
    + eapply IH; [|eapply nearest_inF_snoc_keep; [eassumption|]].
      * intros y [<-|Hy]; apply Hcmp; [left; reflexivity|right; right; exact Hy].
      * destruct (@leb_total (abs (e - goal)) (abs (x - goal))) as [H|H];
          [apply Hcmp; left; reflexivity
          |apply Hcmp; right; left; reflexivity
          |congruence|exact H].
Qed.

(** On finite numbers the distances are numbers, and the first of the
    nearest elements is returned. *)
Lemma getNearestInArrayF_spec (arr : list float) :
  arr <> [] -> finite goal = true ->
  (forall x, In x arr -> finite x = true) ->
  exists e i, getNearestInArrayF arr goal = Some e /\ nearest_inF arr e i.
Proof.
  destruct arr as [|x rest]; [congruence|intros _ Hg Hfin].
  unfold getNearestInArrayF. cbn [fold_left nearest_stepF].
  assert (Hcmp : forall y, In y (x :: rest) ->
                           (abs (y - goal) <=? abs (y - goal)) = true).
  { intros y Hy. apply distance_comparable; [apply Hfin, Hy|exact Hg]. }
  apply (@fold_nearestF rest [x] x 0%nat Hcmp).
  repeat split.
  - intros e' [<-|[]]. apply Hcmp. left. reflexivity.
  - intros j e' Hj. lia.
Qed.
End NearestF.

(** ** The threshold table in doubles *)

Section BranchesF.
Variable s : float.

Lemma tickPolicyF_years :
  (12 <? s) = true ->
  tickPolicyF s = Some (mkTicksF Years (Rounded (d3_roundF (s / 12))) "%Y").
Proof. intro H. unfold tickPolicyF. rewrite H. reflexivity. Qed.

Lemma tickPolicyF_months :
  (1 <? s) = true -> (s <=? 12) = true ->
  tickPolicyF s
  = Some (mkTicksF Months (Picked (getNearestInArrayF monthStepsF s)) "%b %y").
Proof.
  intros H1 H2. unfold tickPolicyF.
  rewrite (@leb_not_ltb _ _ H2), H2, H1. reflexivity.
Qed.

Lemma tickPolicyF_weeks :
  (1 / 7 <? s) = true -> (s <=? 1) = true ->
  tickPolicyF s
  = Some (mkTicksF Weeks (Rounded (d3_roundF (s * (43 / 10)))) "%d/%m/%y").
Proof.
  intros H1 H2. unfold tickPolicyF.
  rewrite (@leb_below s 1 12 H2 eq_refl), (@leb_not_ltb _ _ H2), H2, H1.
  rewrite andb_false_r. reflexivity.
Qed.

Lemma tickPolicyF_days :
  (1 / 365 <? s) = true -> (s <=? 1 / 7) = true ->
  tickPolicyF s
  = Some (mkTicksF Days (Rounded (d3_roundF (s * 30))) "%d/%m/%y").
Proof.
  intros H1 H2. unfold tickPolicyF.
  rewrite (@leb_below s (1 / 7) 12 H2 eq_refl).
  rewrite (@leb_below s (1 / 7) 1 H2 eq_refl).
  rewrite (@leb_not_ltb _ _ H2), H2, H1.
  rewrite !andb_false_r. reflexivity.
Qed.

Lemma tickPolicyF_hours :
  (s <=? 1 / 365) = true ->
  tickPolicyF s
  = Some (mkTicksF Hours (Rounded (d3_roundF (s * 730))) "%I %p").
Proof.
  intros H. unfold tickPolicyF.
  rewrite (@leb_below s (1 / 365) 12 H eq_refl).
  rewrite (@leb_below s (1 / 365) 1 H eq_refl).
  rewrite (@leb_below s (1 / 365) (1 / 7) H eq_refl).
  rewrite (@leb_not_ltb _ _ H), H.
  rewrite !andb_false_r. reflexivity.
Qed.
End BranchesF.

(** C1: the scaling is [(b - a) / (w * 4e7)], computed in doubles, and the
    policy selects by the first test that holds: years when [scaling > 12],
    months when [1 < scaling <= 12], weeks when [1/7 < scaling <= 1], days
    when [1/365 < scaling <= 1/7], hours when [scaling <= 1/365].  The step
    is what [Math.round] returns for the double [scaling/12],
    [scaling*4.3], [scaling*30] or [scaling*730] (the nearest integer of a
    finite value, ties up), and for months the first of 1, 2, 3, 4, 6, 12
    than which none is nearer to the scaling.  A scaling equal to 12, 1, 1/7
    or 1/365 selects months, weeks, days or hours. *)
Theorem tick_policy_thresholds (a b : Z) (w : float) :
  let s := scalingF a b w in
  s = (Z2F b - Z2F a) / (w * 4e7) /\
  ((12 <? s) = true ->
   exists r,
     tickPolicyF s = Some (mkTicksF Years (Rounded r) "%Y") /\
     rounds (s / 12) r) /\
  ((1 <? s) = true /\ (s <=? 12) = true ->
   exists m i,
     tickPolicyF s = Some (mkTicksF Months (Picked (Some m)) "%b %y") /\
     nearest_inF s [1; 2; 3; 4; 6; 12] m i) /\
  ((1 / 7 <? s) = true /\ (s <=? 1) = true ->
   exists r,
     tickPolicyF s = Some (mkTicksF Weeks (Rounded r) "%d/%m/%y") /\
     rounds (s * (43 / 10)) r) /\
  ((1 / 365 <? s) = true /\ (s <=? 1 / 7) = true ->
   exists r,
     tickPolicyF s = Some (mkTicksF Days (Rounded r) "%d/%m/%y") /\
     rounds (s * 30) r) /\
  ((s <=? 1 / 365) = true ->
   exists r,
     tickPolicyF s = Some (mkTicksF Hours (Rounded r) "%I %p") /\
     rounds (s * 730) r) /\
  ((s =? 12) = true -> tickIntervalF s = Some Months) /\
  ((s =? 1) = true -> tickIntervalF s = Some Weeks) /\
  ((s =? 1 / 7) = true -> tickIntervalF s = Some Days) /\
  ((s =? 1 / 365) = true -> tickIntervalF s = Some Hours).
Proof.
  cbn zeta. split; [reflexivity|].
  generalize (scalingF a b w). intro s.
  assert (Hmonths : (1 <? s) = true -> (s <=? 12) = true ->
                    tickIntervalF s = Some Months).
  { intros H1 H2. unfold tickIntervalF.
    rewrite tickPolicyF_months by assumption. reflexivity. }
  assert (Hweeks : (1 / 7 <? s) = true -> (s <=? 1) = true ->
                   tickIntervalF s = Some Weeks).
  { intros H1 H2. unfold tickIntervalF.
    rewrite tickPolicyF_weeks by assumption. reflexivity. }
  assert (Hdays : (1 / 365 <? s) = true -> (s <=? 1 / 7) = true ->
                  tickIntervalF s = Some Days).
  { intros H1 H2. unfold tickIntervalF.
    rewrite tickPolicyF_days by assumption. reflexivity. }
  split; [|split; [|split; [|split; [|split; [|split; [|split; [|split]]]]]]].
  - intro H. eexists. split; [apply tickPolicyF_years, H|].
    apply d3_roundF_rounds.
  - intros [H1 H2].
    destruct (@getNearestInArrayF_spec s monthStepsF) as (m & i & Hm & Hn).
    + discriminate.
    + apply (@between_finite 1 s 12); try reflexivity; assumption.
    + intros x Hx. repeat destruct Hx as [<-|Hx]; try reflexivity.
      destruct Hx.
    + exists m, i. split; [|exact Hn].
      rewrite tickPolicyF_months by assumption. rewrite Hm. reflexivity.
  - intros [H1 H2]. eexists. split; [apply tickPolicyF_weeks; assumption|].
    apply d3_roundF_rounds.
  - intros [H1 H2]. eexists. split; [apply tickPolicyF_days; assumption|].
    apply d3_roundF_rounds.
  - intro H. eexists. split; [apply tickPolicyF_hours, H|].
    apply d3_roundF_rounds.
  - intro E. apply eqb_leb in E as [Hle Hge]. apply Hmonths; [|exact Hle].
    apply (@ltb_leb_trans 1 12 s eq_refl Hge).
  - intro E. apply eqb_leb in E as [Hle Hge]. apply Hweeks; [|exact Hle].
    apply (@ltb_leb_trans (1 / 7) 1 s eq_refl Hge).
  - intro E. apply eqb_leb in E as [Hle Hge]. apply Hdays; [|exact Hle].
    apply (@ltb_leb_trans (1 / 365) (1 / 7) s eq_refl Hge).
  - intro E. apply eqb_leb in E as [Hle Hge]. unfold tickIntervalF.
    rewrite tickPolicyF_hours by exact Hle. reflexivity.
Qed.

(** At a span of 60000000 ms on 730 pixels [scaling * 730] is the double
    just below 1.5 and the step is 1; the exact product is 1.5. *)
Example tick_policy_rounds_the_double :
  tickPolicyF (scalingF 0 60000000 (Z2F 730))
  = Some (mkTicksF Hours (Rounded (RInt 1)) "%I %p").
Proof. vm_compute. reflexivity. Qed.

(** At 5, as far from 4 as from 6, the step is 4, the first of the two. *)
Example tick_policy_months_tie :
  tickPolicyF 5 = Some (mkTicksF Months (Picked (Some 4)) "%b %y").
Proof. vm_compute. reflexivity. Qed.

(** ** The order of the tick units *)

Definition unitRank (u : Interval) : Z :=
  match u with
  | Hours => 0
  | Days => 1
  | Weeks => 2
  | Months => 3
  | Years => 4
  end.

Lemma tickIntervalF_cases (s : float) :
  (s <=? s) = true ->
  ((s <=? 1 / 365) = true /\ tickIntervalF s = Some Hours) \/
  ((1 / 365 <? s) = true /\ (s <=? 1 / 7) = true /\
   tickIntervalF s = Some Days) \/
  ((1 / 7 <? s) = true /\ (s <=? 1) = true /\ tickIntervalF s = Some Weeks) \/
  ((1 <? s) = true /\ (s <=? 12) = true /\ tickIntervalF s = Some Months) \/
  ((12 <? s) = true /\ tickIntervalF s = Some Years).
Proof.
  intro Hs. unfold tickIntervalF.
  destruct (@leb_total s 12 Hs eq_refl) as [H12|H12].
  { right; right; right; right. split; [exact H12|].
    rewrite tickPolicyF_years by exact H12. reflexivity. }
  destruct (@leb_total s 1 Hs eq_refl) as [H1|H1].
  { right; right; right; left. split; [exact H1|]. split; [exact H12|].
    rewrite tickPolicyF_months by assumption. reflexivity. }
  destruct (@leb_total s (1 / 7) Hs eq_refl) as [H7|H7].
  { right; right; left. split; [exact H7|]. split; [exact H1|].
    rewrite tickPolicyF_weeks by assumption. reflexivity. }
  destruct (@leb_total s (1 / 365) Hs eq_refl) as [H365|H365].
  { right; left. split; [exact H365|]. split; [exact H7|].
    rewrite tickPolicyF_days by assumption. reflexivity. }
  left. split; [exact H365|].
  rewrite tickPolicyF_hours by assumption. reflexivity.
Qed.

(** [c < s <= s' <= c'] with [c' <= c] cannot be. *)
Lemma no_crossing (s s' c c' : float) :
  (s <=? s') = true -> (c <? s) = true -> (s' <=? c') = true ->
  (c' <=? c) = true -> False.
Proof.
  intros Hss Hc Hc' Hcc.
  pose proof (@leb_trans _ _ _ (@leb_trans _ _ _ Hss Hc') Hcc) as H.
  pose proof (@ltb_leb_trans _ _ _ Hc H) as H'.
  rewrite ltb_irrefl in H'. discriminate.
Qed.

(** A scaling that is not a number selects no unit. *)
Lemma tickPolicyF_nan (s : float) : (s <=? s) = false -> tickPolicyF s = None.
Proof.
  intro Hs.
  assert (Hlt : forall c, (c <? s) = false).
  { intro c. destruct (c <? s) eqn:E; [|reflexivity].
    apply ltb_comparable in E as [_ E]. congruence. }
  assert (Hle : forall c, (s <=? c) = false).
  { intro c. destruct (s <=? c) eqn:E; [|reflexivity].
    apply leb_comparable in E as [E _]. congruence. }
  unfold tickPolicyF. rewrite !Hlt, !Hle. reflexivity.
Qed.

(** X22: a scaling that is a number ([NaN] selects no unit) always selects
    a unit, and of two such scalings the larger never selects the finer
    unit: from hours through days, weeks and months to years the unit is
    monotone in the scaling. *)
Theorem tick_unit_monotone (s s' : float) :
  ((s <=? s) = false -> tickPolicyF s = None) /\
  ((s <=? s') = true ->
   exists u u',
     tickIntervalF s = Some u /\ tickIntervalF s' = Some u' /\
     (unitRank u <= unitRank u')%Z).
Proof.
  split; [apply tickPolicyF_nan|]. intro Hle.
  destruct (@leb_comparable _ _ Hle) as [Hs Hs'].
  destruct (@tickIntervalF_cases s Hs) as [H|[H|[H|[H|H]]]];
    destruct (@tickIntervalF_cases s' Hs') as [H'|[H'|[H'|[H'|H']]]];
    repeat match goal with H : _ /\ _ |- _ => destruct H end;
    try (eexists; eexists;
         split; [eassumption|split; [eassumption|cbn; lia]]);
    exfalso;
    match goal with
    | Hc : (?c <? s) = true, Hc' : (s' <=? ?c') = true |- _ =>
        apply (@no_crossing s s' c c' Hle Hc Hc'); reflexivity
    end.
Qed.

(** ** The drag handler in doubles *)

(** One bar from 2000-01-01 to 2020-01-01 on 1000 pixels, the selected date
    2010-07-02T14:25:35.264Z. *)
Definition years2000 : option Widget :=
  TimeLine (Some 1000%Z)
    (Options.mk (Given 1278080735264%Z) Null Null Null
       (Given [mkTimeBar "a" "A" 946684800000 1577836800000 []])) 0.

(** One bar from 1940-01-01 to 1960-01-01 on 1000 pixels, the selected date
    the last date of the bar. *)
Definition years1940 : option Widget :=
  TimeLine (Some 1000%Z)
    (Options.mk (Given (-315619200000)%Z) Null Null Null
       (Given [mkTimeBar "a" "A" (-946771200000) (-315619200000) []])) 0.

(** C3: the drag handler does not keep what it is written to keep.  With
    either formula of d3 for each half of the scale:
    - on the domain 2000-2020 a step of 5000 pixels from the selected date
      has its candidate pixel right of the range, and the step, instead of
      leaving [draggedDate] where it was, moves it by one millisecond: the
      pixel [x + dx - dx] is not [x] in doubles, and the date of that pixel
      is truncated;
    - on the domain 1940-1960, with the marker on the last date of the
      domain, a step of [74/3] pixels has its candidate right of the range
      too, and leaves [draggedDate] one millisecond after the last date of
      the domain: outside the domain. *)
Theorem dragDate_drifts (v : D3) :
  (exists st,
     years2000 = Some st /\
     xScale st = mkXScale (Some 946684800000%Z, Some 1577836800000%Z) (0%Z, 1000%Z) /\
     draggedDate st = Some 1278080735264%Z /\
     (Z2F 1000 <? scaleXF v (xScale st) (draggedDate st) + 5000) = true /\
     draggedDate (dragDateF v 5000 st) = Some 1278080735263%Z) /\
  (exists st,
     years1940 = Some st /\
     xScale st = mkXScale (Some (-946771200000)%Z, Some (-315619200000)%Z) (0%Z, 1000%Z) /\
     draggedDate st = Some (-315619200000)%Z /\
     (Z2F 1000 <? scaleXF v (xScale st) (draggedDate st) + 74 / 3) = true /\
     draggedDate (dragDateF v (74 / 3) st) = Some (-315619199999)%Z).
Proof.
  split; (eexists; split; [reflexivity|]; split; [reflexivity|];
          split; [reflexivity|]);
    destruct v as [[|] [|]]; split; vm_compute; reflexivity.
Qed.

(** ** Redrawing twice *)

Lemma scalingOf_redraw (st : Widget) : scalingOf (redraw st) = scalingOf st.
Proof. reflexivity. Qed.

(** X1: a second [redraw] right after a [redraw] leaves the scales, the
    lanes and the two markers as the first made them, but not the axis: a
    [redraw] draws the axis (line 203) before it sets the tick arguments
    (lines 205-220), so the first draws the ticks by the arguments the
    axis had and the second by the arguments the first has set.  The
    arguments are the same after both, and a third [redraw] draws what the
    second drew. *)
Theorem redraw_idempotent (st : Widget) (ax : Axis) :
  let st1 := redraw st in
  let ax1 := redrawAxis st ax in
  let st2 := redraw st1 in
  let ax2 := redrawAxis st1 ax1 in
  st2 = set_view
          (mkView (lanes (view st1)) (nowLine (view st1))
                  (selectedDateLine (view st1))
                  (redraws (view st1) ++ [timebars st]))
          st1 /\
  drawnAxis ax1
  = Some (mkDrawnAxis (ticksArgs ax) (xScale st1) (axisY (height st))) /\
  drawnAxis ax2
  = Some (mkDrawnAxis (ticksArgs ax1) (xScale st1) (axisY (height st))) /\
  ticksArgs ax2 = ticksArgs ax1 /\
  redrawAxis st2 ax2 = ax2.
Proof.
  cbn zeta. split; [apply redraw_redraw|].
  split; [reflexivity|]. split; [reflexivity|].
  unfold redrawAxis. cbn [ticksArgs drawnAxis].
  rewrite !scalingOf_redraw.
  destruct (tickPolicyF (scalingOf st)); split; reflexivity.
Qed.

(** After the constructor, which redraws once, the axis shows the ticks d3
    gives a new axis; those of the policy, here every 3 weeks, are shown
    from the next [redraw] on. *)
Example axis_after_constructor :
  exists st,
    year2020 = Some st /\
    option_map drawn_ticks (drawnAxis (redrawAxis st newAxis)) = Some None /\
    ticksArgs (redrawAxis st newAxis)
    = Some (mkTicksF Weeks (Rounded (RInt 3)) "%d/%m/%y") /\
    option_map drawn_ticks
      (drawnAxis (redrawAxis (redraw st) (redrawAxis st newAxis)))
    = Some (Some (mkTicksF Weeks (Rounded (RInt 3)) "%d/%m/%y")).
Proof.
  eexists. split; [reflexivity|]. split; [reflexivity|].
  split; vm_compute; reflexivity.
Qed.
End DoublesFacts.
